(** * lovedarts: login / signup flow over a hosted authentication provider

    A shallow embedding of the TypeScript sources

      - [src/supabase.ts]                 (provider client construction)
      - [src/services/authService.ts]     (class [AuthService])
      - [src/services/profileService.ts]  (class [ProfileService])
      - [src/pages/login.ts], [src/pages/signup.ts] (form handlers)
      - [signup.js]                       (the superseded form handler)

    JavaScript strings are sequences of UTF-16 code units, statements are
    computations in a state monad whose completions are the three
    completion kinds of the language (normal, [return], [throw]), and the
    array held in [authStateListeners] lives in a store of array objects so
    that in-place [push] and the fresh array built by [filter] are told
    apart. *)

From stdpp Require Import base option list.
From Stdlib Require Import NArith Ascii.
From Stdlib Require String.
Import String.StringSyntax.

Delimit Scope string_scope with string.

Set Default Proof Using "Type".
Open Scope list_scope.

(** ** JavaScript values and control flow *)

Module Js.

(** A string is its sequence of UTF-16 code units. *)
Abbreviation CodeUnit := N (only parsing).
Abbreviation JsString := (list CodeUnit) (only parsing).

(** String literals of the sources (all of them are ASCII). *)
Definition lit (s : String.string) : JsString :=
  N_of_ascii <$> String.list_ascii_of_string s.
Arguments lit s%_string.

(** [s.startsWith(key)] *)
Fixpoint startsWith (s key : JsString) {struct key} : bool :=
  match key, s with
  | [], _ => true
  | _ :: _, [] => false
  | k :: key', c :: s' => bool_decide (k = c) && startsWith s' key'
  end.

(** [s.includes(key)]: some position of [s] starts an occurrence of [key]. *)
Fixpoint includes (s key : JsString) : bool :=
  startsWith s key ||
  match s with
  | [] => false
  | _ :: s' => includes s' key
  end.

(** WhiteSpace and LineTerminator code units, the ones [trim] strips. *)
Definition isWhiteSpace (c : CodeUnit) : bool :=
  bool_decide (c ∈ [9; 10; 11; 12; 13; 32; 160; 5760;
                    8192; 8193; 8194; 8195; 8196; 8197; 8198; 8199; 8200;
                    8201; 8202; 8232; 8233; 8239; 8287; 12288; 65279]%N).

Fixpoint trimStart (s : JsString) : JsString :=
  match s with
  | [] => []
  | c :: s' => if isWhiteSpace c then trimStart s' else s
  end.

Definition trimEnd (s : JsString) : JsString := reverse (trimStart (reverse s)).

(** [s.trim()] *)
Definition trim (s : JsString) : JsString := trimEnd (trimStart s).

(** Truthiness: of a string ([""] is falsy), and of a value that is either
    an object or nullish ([None] stands for [null] and [undefined]; an object is
    always truthy). *)
Definition truthyStr (s : JsString) : bool :=
  match s with [] => false | _ :: _ => true end.

Definition truthy {A} (v : option A) : bool :=
  match v with Some _ => true | None => false end.

(** [a || b] on object-or-nullish values. *)
Definition or_else {A} (a b : option A) : option A := if truthy a then a else b.

(** [a ?? b] on object-or-nullish values. *)
Definition nullish {A} (a b : option A) : option A :=
  match a with
  | Some _ => a
  | None => b
  end.

(** [e || 'text'] where [e] is an optional string: the fallback is taken when
    [e] is undefined or empty. *)
Definition str_or (e : option JsString) (d : JsString) : JsString :=
  match e with
  | Some s => if truthyStr s then s else d
  | None => d
  end.

(** Thrown values, and the reasons of rejected promises: an error object with
    its message, [null] or [undefined], or any other value (a primitive, or
    an object without a message). *)
Inductive JsError :=
| TypeError (message : JsString)
| Error (message : JsString)
| ThrownNullish
| ThrownValue.

(** How a call ends: it returns a value or throws; for an [async] function,
    its promise is fulfilled with the value or rejected with the error. *)
Inductive Result (R : Type) :=
| Returns (r : R)
| Throws (e : JsError).
Arguments Returns {R} r.
Arguments Throws {R} e.

(** Completion of a statement inside a function whose return type is [R]. *)
Inductive Completion (R A : Type) :=
| Normal (a : A)
| Return (r : R)
| Throw (e : JsError).
Arguments Normal {R A} a.
Arguments Return {R A} r.
Arguments Throw {R A} e.

(** Statements over a state [S]. *)
Definition Stmt (S R A : Type) := S -> Completion R A * S.

Section Statements.
Context {S R : Type}.

Definition ret {A} (a : A) : Stmt S R A := fun s => (Normal a, s).

Definition bind {A B} (c : Stmt S R A) (k : A -> Stmt S R B) : Stmt S R B :=
  fun s =>
    match c s with
    | (Normal a, s1) => k a s1
    | (Return r, s1) => (Return r, s1)
    | (Throw e, s1) => (Throw e, s1)
    end.

(** [return r] *)
Definition return_ {A} (r : R) : Stmt S R A := fun s => (Return r, s).

(** [throw e] *)
Definition throw {A} (e : JsError) : Stmt S R A := fun s => (Throw e, s).

Definition get : Stmt S R S := fun s => (Normal s, s).
Definition gets {A} (f : S -> A) : Stmt S R A := fun s => (Normal (f s), s).
Definition modify (f : S -> S) : Stmt S R unit := fun s => (Normal tt, f s).

(** [if (c) { body }] *)
Definition when (c : bool) (body : Stmt S R unit) : Stmt S R unit :=
  if c then body else ret tt.

(** [await p] on a settled promise, and the outcome of a plain call alike. *)
Definition await {A} (p : Result A) : Stmt S R A :=
  match p with
  | Returns a => ret a
  | Throws e => throw e
  end.

(** Reading a property of [o] throws a TypeError when [o] is nullish. *)
Definition deref {A} (o : option A) : Stmt S R A :=
  match o with
  | Some a => ret a
  | None => throw (TypeError (lit "Cannot read properties of undefined"))
  end.

(** [try { body } catch (err) { handler }] *)
Definition try_catch {A} (body : Stmt S R A) (handler : JsError -> Stmt S R A)
  : Stmt S R A :=
  fun s =>
    match body s with
    | (Throw e, s1) => handler e s1
    | done => done
    end.

(** [try { body } finally { fin }]: [fin] runs after every completion of
    [body]; an abrupt completion of [fin] replaces that of [body]. *)
Definition try_finally {A} (body : Stmt S R A) (fin : Stmt S R unit)
  : Stmt S R A :=
  fun s =>
    let '(c, s1) := body s in
    match fin s1 with
    | (Normal _, s2) => (c, s2)
    | (Return r, s2) => (Return r, s2)
    | (Throw e, s2) => (Throw e, s2)
    end.

(** Running a function body: falling off the end and [return] both return. *)
Definition call (body : Stmt S R R) (s : S) : Result R * S :=
  match body s with
  | (Normal r, s1) => (Returns r, s1)
  | (Return r, s1) => (Returns r, s1)
  | (Throw e, s1) => (Throws e, s1)
  end.

(** A body every path of which ends in [return] or [throw]. *)
Definition call_returning (body : Stmt S R Empty_set) (s : S) : Result R * S :=
  match body s with
  | (Normal a, _) => match a with end
  | (Return r, s1) => (Returns r, s1)
  | (Throw e, s1) => (Throws e, s1)
  end.
End Statements.

Declare Scope stmt_scope.
Delimit Scope stmt_scope with stmt.
Notation "'let!' x ':=' c 'in' k" := (bind c (fun x => k))
  (at level 10, x name, c at level 100, k at level 200) : stmt_scope.
Notation "c >> k" := (bind c (fun _ => k))
  (at level 100, k at level 200, right associativity) : stmt_scope.

End Js.

Import Js.
Open Scope stmt_scope.

(** ** The provider SDK, as the services see it *)

Module Provider.

(** UserRecord and SessionRecord are issued by the provider. *)
Record User := { id : JsString; email : JsString }.
Record Session := { access_token : JsString; session_user : option User }.

(** A structured error reported by a completed remote call. *)
Record ProviderError := { message : JsString }.

(** The [data] part of a reply of the auth operations. *)
Record AuthData := { data_user : option User; data_session : option Session }.

(** A reply [{ data, error }]. *)
Record Reply := { data : option AuthData; error : option ProviderError }.

(** [client.auth]: every operation settles to a reply (which may be nullish)
    or rejects. *)
Record AuthApi := {
  signInWithPassword : JsString -> JsString -> Result (option Reply);
  signUp : JsString -> JsString -> Result (option Reply);
  signOut : Result (option Reply);
  getSession : Result (option Reply);
  getUser : Result (option Reply)
}.

(** The client: [auth], and [from(table).insert({ id, username })]. *)
Record Client := {
  auth : option AuthApi;
  from_insert : JsString -> JsString -> JsString -> Result (option Reply)
}.

End Provider.

Import Provider.

(** ** [src/supabase.ts] *)

Module Supabase.

(** [import.meta.env]: a variable is a string or is undefined. *)
Record Env := {
  VITE_SUPABASE_URL : option JsString;
  VITE_SUPABASE_ANON_KEY : option JsString
}.

(** [!v] for an environment variable. *)
Definition missing (v : option JsString) : bool :=
  match v with
  | Some s => negb (truthyStr s)
  | None => true
  end.

Section Module.
(** [(window as any).supabase.createClient(url, key)], a call into the SDK. *)
Variable createClient : JsString -> JsString -> Result Client.

(** The module body; its value is the exported [supabaseClient]. *)
Definition module_body (env : Env) : Stmt unit Client Client :=
  let supabaseUrl := VITE_SUPABASE_URL env in
  let supabaseKey := VITE_SUPABASE_ANON_KEY env in
  when (missing supabaseUrl || missing supabaseKey)
    (throw (Error (lit "Missing Supabase environment variables"))) >>
  await (createClient (default [] supabaseUrl) (default [] supabaseKey)).

(** Evaluating the module: the exported client, or the error thrown. *)
Definition supabaseClient (env : Env) : Result Client :=
  fst (call (module_body env) tt).
End Module.

End Supabase.

(** ** [src/services/authService.ts] *)

Module AuthService.

Record AuthResponse := {
  success : bool;
  user : option User;
  session : option Session;
  error : option JsString
}.

(** [{ success: false, error: msg }] *)
Definition failure (msg : JsString) : AuthResponse :=
  {| success := false; user := None; session := None; error := Some msg |}.

(** A callback is a function object, known by its identity. *)
Abbreviation Ref := nat (only parsing).

(** Array objects are known by their identity too. *)
Abbreviation Loc := nat (only parsing).

(** The closure returned by [onAuthStateChange]; it captures [callback]. *)
Record Unsubscribe := { captured : Ref }.

(** What a listener may do to the service while it runs. *)
Inductive Action :=
| Subscribe (callback : Ref)
| Invoke (handle : Unsubscribe).

Inductive ConsoleEntry :=
| ConsoleError (text : JsString) (err : option JsError).

(** The service object together with the part of the world it acts on. *)
Record State := {
  supabaseClient : option Client;
  authStateListeners : Loc;
  arrays : list (list Ref);
  upstream : nat;
  invocations : list (Ref * option User);
  console : list ConsoleEntry
}.

Definition with_listeners (s : State) (l : Loc) (a : list (list Ref)) : State :=
  {| supabaseClient := supabaseClient s; authStateListeners := l; arrays := a;
     upstream := upstream s; invocations := invocations s; console := console s |}.

Definition with_upstream (s : State) (n : nat) : State :=
  {| supabaseClient := supabaseClient s; authStateListeners := authStateListeners s;
     arrays := arrays s; upstream := n; invocations := invocations s;
     console := console s |}.

Definition with_invocation (s : State) (i : Ref * option User) : State :=
  {| supabaseClient := supabaseClient s; authStateListeners := authStateListeners s;
     arrays := arrays s; upstream := upstream s;
     invocations := invocations s ++ [i]; console := console s |}.

Definition with_console (s : State) (e : ConsoleEntry) : State :=
  {| supabaseClient := supabaseClient s; authStateListeners := authStateListeners s;
     arrays := arrays s; upstream := upstream s; invocations := invocations s;
     console := console s ++ [e] |}.

(** The array object at [l]. *)
Definition array_at (s : State) (l : Loc) : list Ref := default [] (arrays s !! l).

(** The contents of [this.authStateListeners]. *)
Definition registered (s : State) : list Ref := array_at s (authStateListeners s).

(** [console.error(text, err)] *)
Definition console_error {R} (text : JsString) (err : option JsError)
  : Stmt State R unit :=
  modify (fun s => with_console s (ConsoleError text err)).

(** *** [formatErrorMessage] *)

(** The entries of [errorMap], in the order [Object.entries] yields them. *)
Definition errorMap : list (JsString * JsString) :=
  [ (lit "Invalid login credentials", lit "Invalid email or password");
    (lit "Email not confirmed", lit "Please confirm your email before logging in");
    (lit "User already registered", lit "This email is already registered");
    (lit "Password should be at least 6 characters",
     lit "Password must be at least 6 characters");
    (lit "User not found", lit "No account found with this email") ].

(** The [for ... of] loop; [None] when it runs to its end. *)
Fixpoint for_entries (entries : list (JsString * JsString)) (rawError : JsString)
  : option JsString :=
  match entries with
  | [] => None
  | (key, message) :: rest =>
      if includes rawError key then Some message else for_entries rest rawError
  end.

Definition formatErrorMessage (rawError : JsString) : JsString :=
  match for_entries errorMap rawError with
  | Some message => message
  | None => lit "Authentication failed. Please try again"
  end.

(** *** Sign-in, sign-up, sign-out *)

(** [this.supabaseClient.auth] *)
Definition this_auth {R} : Stmt State R AuthApi :=
  let! client := gets supabaseClient in
  let! c := deref client in
  deref (auth c).

(** The common body of [login] and [signup]. *)
Definition credentials_call (op : AuthApi -> JsString -> JsString -> Result (option Reply))
    (unexpected : JsString) (email password : JsString)
  : Stmt State AuthResponse Empty_set :=
  try_catch
    (let! api := this_auth in
     let! settled := await (op api email password) in
     let! reply := deref settled in
     match Provider.error reply with
     | Some err => return_ (failure (formatErrorMessage (message err)))
     | None =>
         let! d := deref (data reply) in
         return_ {| success := true; user := data_user d;
                    session := data_session d; error := None |}
     end)
    (fun err => return_ (failure unexpected)).

Definition login (email password : JsString) : Stmt State AuthResponse Empty_set :=
  credentials_call signInWithPassword
    (lit "An unexpected error occurred during login") email password.

Definition signup (email password : JsString) : Stmt State AuthResponse Empty_set :=
  credentials_call signUp
    (lit "An unexpected error occurred during signup") email password.

Definition logout : Stmt State AuthResponse Empty_set :=
  try_catch
    (let! api := this_auth in
     let! settled := await (signOut api) in
     let! reply := deref settled in
     match Provider.error reply with
     | Some _ => return_ (failure (lit "Failed to logout"))
     | None => return_ {| success := true; user := None; session := None;
                          error := None |}
     end)
    (fun err => return_ (failure (lit "An unexpected error occurred during logout"))).

(** *** Reading the current session and user *)

Definition getSession : Stmt State (option Session) Empty_set :=
  try_catch
    (let! api := this_auth in
     let! settled := await (Provider.getSession api) in
     let! reply := deref settled in
     let! d := deref (data reply) in
     return_ (data_session d))
    (fun err => return_ None).

Definition getUser : Stmt State (option User) Empty_set :=
  try_catch
    (let! api := this_auth in
     let! settled := await (Provider.getUser api) in
     let! reply := deref settled in
     let! d := deref (data reply) in
     return_ (or_else (data_user d) None))
    (fun err => return_ None).

(** *** The listener registry *)

(** [this.authStateListeners.push(callback)]: the array object is updated in
    place; every reference to it sees the new element. *)
Definition push (callback : Ref) (s : State) : State :=
  with_listeners s (authStateListeners s)
    (alter (fun l => l ++ [callback]) (authStateListeners s) (arrays s)).

(** [this.authStateListeners = this.authStateListeners.filter(listener =>
    listener !== callback)]: [filter] builds a new array object, and the field
    is made to point to it; the old array object is left as it was. *)
Definition reassign_filtered (callback : Ref) (s : State) : State :=
  let kept := filter (fun listener => listener <> callback) (registered s) in
  with_listeners s (length (arrays s)) (arrays s ++ [kept]).

Definition onAuthStateChange {R} (callback : Ref) : Stmt State R Unsubscribe :=
  modify (push callback) >>
  ret {| captured := callback |}.

(** Calling the closure that [onAuthStateChange] returned. *)
Definition unsubscribe {R} (handle : Unsubscribe) : Stmt State R unit :=
  modify (reassign_filtered (captured handle)).

(** [array.forEach(f)] on the array object at [O]: the length is read once,
    the elements are read as the loop reaches them, and an exception of [f]
    ends the loop. *)
Fixpoint forEach_from {R} (O : Loc) (k n : nat) (f : Ref -> Stmt State R unit)
  : Stmt State R unit :=
  match n with
  | 0 => ret tt
  | S n' =>
      let! a := gets (fun s => array_at s O) in
      match a !! k with
      | Some kValue => f kValue >> forEach_from O (S k) n' f
      | None => forEach_from O (S k) n' f
      end
  end.

Definition forEach {R} (O : Loc) (f : Ref -> Stmt State R unit) : Stmt State R unit :=
  let! len := gets (fun s => length (array_at s O)) in
  forEach_from O 0 len f.

Section Listeners.
(** What the function object [callback] does when it is called with [user],
    given the calls made to listeners so far: the calls it makes to the
    service, in order, and whether it ends by throwing. *)
Variable behaviour :
  Ref -> option User -> list (Ref * option User) -> list Action * option JsError.

Definition run_action {R} (a : Action) : Stmt State R unit :=
  match a with
  | Subscribe callback => onAuthStateChange callback >> ret tt
  | Invoke handle => unsubscribe handle
  end.

Fixpoint run_actions {R} (acts : list Action) : Stmt State R unit :=
  match acts with
  | [] => ret tt
  | a :: rest => run_action a >> run_actions rest
  end.

(** [callback(user)] *)
Definition invoke {R} (callback : Ref) (user : option User) : Stmt State R unit :=
  let! history := gets invocations in
  modify (fun s => with_invocation s (callback, user)) >>
  run_actions (behaviour callback user history).1 >>
  match (behaviour callback user history).2 with
  | Some e => throw e
  | None => ret tt
  end.

Definition notifyListeners (user : option User) : Stmt State unit unit :=
  let! listeners := gets authStateListeners in
  forEach listeners (fun callback =>
    try_catch
      (invoke callback user)
      (fun err =>
         console_error (lit "Error in auth state change callback:") (Some err))).

(** The arrow function handed to the provider's [onAuthStateChange]. *)
Definition authStateHandler (event : JsString) (session : option Session)
  : Stmt State unit unit :=
  let user := or_else (session ≫= session_user) None in
  notifyListeners user.

Definition initializeAuthStateListener : Stmt State unit unit :=
  let! client := gets supabaseClient in
  when (negb (truthy (client ≫= auth)))
    (console_error (lit "Supabase client not properly initialized") None >>
     return_ tt) >>
  modify (fun s => with_upstream s (S (upstream s))).

(** [new AuthService(supabaseClient)] *)
Definition new (client : option Client) : State :=
  (call initializeAuthStateListener
     {| supabaseClient := client; authStateListeners := 0; arrays := [[]];
        upstream := 0; invocations := []; console := [] |}).2.

(** The provider's stream emits [(event, session)]: every handler the
    service registered upstream is called. *)
Fixpoint emit_to (n : nat) (event : JsString) (session : option Session)
  : Stmt State unit unit :=
  match n with
  | 0 => ret tt
  | S n' =>
      (fun s => await (call (authStateHandler event session) s).1
                  (call (authStateHandler event session) s).2) >>
      emit_to n' event session
  end.

Definition emit (event : JsString) (session : option Session) (s : State)
  : Result unit * State :=
  call (emit_to (upstream s) event session) s.
End Listeners.

End AuthService.

(** ** [src/services/profileService.ts] *)

Module ProfileService.

Record ProfileResponse := { success : bool; error : option JsString }.

Record State := { supabaseClient : option Client }.

Definition createUserProfile (userId username : JsString)
  : Stmt State ProfileResponse Empty_set :=
  try_catch
    (let! client := gets supabaseClient in
     let! c := deref client in
     let! settled := await (from_insert c (lit "profiles") userId username) in
     let! reply := deref settled in
     match Provider.error reply with
     | Some _ =>
         return_ {| success := false;
                    error := Some (lit "Failed to create user profile") |}
     | None => return_ {| success := true; error := None |}
     end)
    (fun err =>
       return_ {| success := false;
                  error := Some (lit "An unexpected error occurred while creating profile") |}).

End ProfileService.

(** ** The pages *)

Module Dom.

Record Element := {
  value : JsString;
  textContent : JsString;
  classList : list JsString;
  disabled : bool
}.

(** The calls a handler makes to the gateways, or to the SDK itself. *)
Inductive Call :=
| AuthLogin (email password : JsString)
| AuthSignup (email password : JsString)
| ProfileCreate (userId username : JsString)
| SdkSignUp (email password : JsString)
| SdkInsert (table userId username : JsString).

Inductive ConsoleEntry :=
| ConsoleLog (text : JsString) (detail : option JsString)
| ConsoleError (text : JsString) (detail : option JsString).

(** The elements a form handler looks up, and the effects it has besides. *)
Record Page := {
  email_input : Element;
  password_input : Element;
  username_input : Element;
  button : Element;
  errorContainer : Element;
  navigations : list JsString;
  console : list ConsoleEntry;
  calls : list Call
}.

(** [classList.add(token)] and [classList.remove(token)] *)
Definition classList_add (token : JsString) (e : Element) : Element :=
  {| value := value e; textContent := textContent e;
     classList := if bool_decide (token ∈ classList e) then classList e
                  else classList e ++ [token];
     disabled := disabled e |}.

Definition classList_remove (token : JsString) (e : Element) : Element :=
  {| value := value e; textContent := textContent e;
     classList := filter (fun c => c <> token) (classList e);
     disabled := disabled e |}.

Definition set_textContent (text : JsString) (e : Element) : Element :=
  {| value := value e; textContent := text; classList := classList e;
     disabled := disabled e |}.

Definition set_disabled (b : bool) (e : Element) : Element :=
  {| value := value e; textContent := textContent e; classList := classList e;
     disabled := b |}.

Definition on_button (f : Element -> Element) (p : Page) : Page :=
  {| email_input := email_input p; password_input := password_input p;
     username_input := username_input p; button := f (button p);
     errorContainer := errorContainer p; navigations := navigations p;
     console := console p; calls := calls p |}.

Definition on_errorContainer (f : Element -> Element) (p : Page) : Page :=
  {| email_input := email_input p; password_input := password_input p;
     username_input := username_input p; button := button p;
     errorContainer := f (errorContainer p); navigations := navigations p;
     console := console p; calls := calls p |}.

(** [window.location.href = url] *)
Definition navigate (url : JsString) (p : Page) : Page :=
  {| email_input := email_input p; password_input := password_input p;
     username_input := username_input p; button := button p;
     errorContainer := errorContainer p; navigations := navigations p ++ [url];
     console := console p; calls := calls p |}.

Definition log (e : ConsoleEntry) (p : Page) : Page :=
  {| email_input := email_input p; password_input := password_input p;
     username_input := username_input p; button := button p;
     errorContainer := errorContainer p; navigations := navigations p;
     console := console p ++ [e]; calls := calls p |}.

Definition record_call (c : Call) (p : Page) : Page :=
  {| email_input := email_input p; password_input := password_input p;
     username_input := username_input p; button := button p;
     errorContainer := errorContainer p; navigations := navigations p;
     console := console p; calls := calls p ++ [c] |}.

(** [showError(errorContainer, message)] *)
Definition showError {R} (message : JsString) : Stmt Page R unit :=
  modify (on_errorContainer (set_textContent message)) >>
  modify (on_errorContainer (classList_add (lit "show"))).

(** The first two statements of both handlers: the previous error is cleared. *)
Definition clearError {R} : Stmt Page R unit :=
  modify (on_errorContainer (set_textContent (lit ""))) >>
  modify (on_errorContainer (classList_remove (lit "show"))).

(** The button enters its loading state; the value is [originalText]. *)
Definition showLoading {R} : Stmt Page R JsString :=
  modify (on_button (set_disabled true)) >>
  modify (on_button (classList_add (lit "loading"))) >>
  let! originalText := gets (fun p => textContent (button p)) in
  modify (on_button (set_textContent (lit ""))) >>
  ret originalText.

(** The [finally] block of both handlers. *)
Definition restoreButton {R} (originalText : JsString) : Stmt Page R unit :=
  modify (on_button (set_disabled false)) >>
  modify (on_button (classList_remove (lit "loading"))) >>
  modify (on_button (set_textContent originalText)).

(** [err.message] in a [catch] block: the message of an error object,
    [undefined] for a value that has none, and a TypeError when what was
    thrown is [null] or [undefined]. *)
Definition err_message {R} (err : JsError) : Stmt Page R (option JsString) :=
  match err with
  | TypeError m => ret (Some m)
  | Error m => ret (Some m)
  | ThrownValue => ret None
  | ThrownNullish => throw (TypeError (lit "Cannot read properties of undefined"))
  end.

(** What [console.error] is handed as [err.message] when reading it does not
    throw. *)
Definition logged_message (err : JsError) : option JsString :=
  match err with
  | TypeError m => Some m
  | Error m => Some m
  | ThrownValue => None
  | ThrownNullish => None
  end.

End Dom.

Import Dom.

(** *** [src/pages/login.ts] *)

Module LoginPage.
Section Handler.
(** [authService.login], as the page sees it. *)
Variable authService_login : JsString -> JsString -> Result AuthService.AuthResponse.

Definition handleLogin : Stmt Page unit unit :=
  let! email := gets (fun p => trim (value (email_input p))) in
  let! password := gets (fun p => value (password_input p)) in
  clearError >>
  when (negb (truthyStr email) || negb (truthyStr password))
    (showError (lit "Please enter both email and password") >> return_ tt) >>
  when (negb (includes email (lit "@")))
    (showError (lit "Please enter a valid email address") >> return_ tt) >>
  let! originalText := showLoading in
  try_finally
    (try_catch
       (modify (record_call (AuthLogin email password)) >>
        let! result := await (authService_login email password) in
        if AuthService.success result then
          modify (log (ConsoleLog (lit "Login successful") None)) >>
          modify (navigate (lit "hub.html"))
        else
          showError (str_or (AuthService.error result) (lit "Login failed")))
       (fun err =>
          let! message := err_message err in
          modify (log (ConsoleError (lit "Login error:") message)) >>
          showError (lit "An unexpected error occurred. Please try again.")))
    (restoreButton originalText).
End Handler.

(** [handleLogin] on a document in which [getElementById('login-button')]
    finds nothing: [loginButton] is [null], and the first statement that
    uses it, [loginButton.disabled = true], throws, before the [try]. *)
Definition handleLogin_without_button : Stmt Page unit unit :=
  let! email := gets (fun p => trim (value (email_input p))) in
  let! password := gets (fun p => value (password_input p)) in
  clearError >>
  when (negb (truthyStr email) || negb (truthyStr password))
    (showError (lit "Please enter both email and password") >> return_ tt) >>
  when (negb (includes email (lit "@")))
    (showError (lit "Please enter a valid email address") >> return_ tt) >>
  throw (TypeError (lit "Cannot set properties of null")).

(** [handleLogin] on a document in which [getElementById('login-password')]
    finds nothing: reading [value] of [null] throws, before any statement
    with an effect. *)
Definition handleLogin_without_password : Stmt Page unit unit :=
  let! email := gets (fun p => trim (value (email_input p))) in
  throw (TypeError (lit "Cannot read properties of null")).
End LoginPage.

(** *** [src/pages/signup.ts] *)

Module SignupPage.
Section Handler.
(** [authService.signup] and [profileService.createUserProfile], as the
    page sees them. *)
Variable authService_signup : JsString -> JsString -> Result AuthService.AuthResponse.
Variable profileService_createUserProfile :
  JsString -> JsString -> Result ProfileService.ProfileResponse.

Definition handleSignup : Stmt Page unit unit :=
  let! email := gets (fun p => trim (value (email_input p))) in
  let! password := gets (fun p => value (password_input p)) in
  let! username := gets (fun p => trim (value (username_input p))) in
  clearError >>
  when (negb (truthyStr email) || negb (truthyStr password)
        || negb (truthyStr username))
    (showError (lit "Please fill in all fields") >> return_ tt) >>
  when (negb (includes email (lit "@")))
    (showError (lit "Please enter a valid email address") >> return_ tt) >>
  when (bool_decide (length password < 6))
    (showError (lit "Password must be at least 6 characters") >> return_ tt) >>
  when (bool_decide (length username < 3))
    (showError (lit "Username must be at least 3 characters") >> return_ tt) >>
  let! originalText := showLoading in
  try_finally
    (try_catch
       (modify (record_call (AuthSignup email password)) >>
        let! signupResult := await (authService_signup email password) in
        when (negb (AuthService.success signupResult))
          (showError (str_or (AuthService.error signupResult) (lit "Signup failed")) >>
           return_ tt) >>
        match AuthService.user signupResult with
        | None => showError (lit "Failed to create user account") >> return_ tt
        | Some u =>
            when (negb (truthyStr (id u)))
              (showError (lit "Failed to create user account") >> return_ tt) >>
            modify (record_call (ProfileCreate (id u) username)) >>
            let! profileResult :=
              await (profileService_createUserProfile (id u) username) in
            when (negb (ProfileService.success profileResult))
              (showError (str_or (ProfileService.error profileResult)
                            (lit "Failed to create user profile")) >>
               return_ tt) >>
            modify (log (ConsoleLog (lit "Signup and profile creation successful") None)) >>
            modify (navigate (lit "hub.html"))
        end)
       (fun err =>
          let! message := err_message err in
          modify (log (ConsoleError (lit "Signup error:") message)) >>
          showError (lit "An unexpected error occurred. Please try again.")))
    (restoreButton originalText).
End Handler.

(** [handleSignup] on a document in which [getElementById('signup-button')]
    finds nothing: [signupButton] is [null], and the first statement that
    uses it, [signupButton.disabled = true], throws, before the [try]. *)
Definition handleSignup_without_button : Stmt Page unit unit :=
  let! email := gets (fun p => trim (value (email_input p))) in
  let! password := gets (fun p => value (password_input p)) in
  let! username := gets (fun p => trim (value (username_input p))) in
  clearError >>
  when (negb (truthyStr email) || negb (truthyStr password)
        || negb (truthyStr username))
    (showError (lit "Please fill in all fields") >> return_ tt) >>
  when (negb (includes email (lit "@")))
    (showError (lit "Please enter a valid email address") >> return_ tt) >>
  when (bool_decide (length password < 6))
    (showError (lit "Password must be at least 6 characters") >> return_ tt) >>
  when (bool_decide (length username < 3))
    (showError (lit "Username must be at least 3 characters") >> return_ tt) >>
  throw (TypeError (lit "Cannot set properties of null")).

(** [handleSignup] on a document in which
    [getElementById('signup-password')] finds nothing: reading [value] of
    [null] throws, before any statement with an effect. *)
Definition handleSignup_without_password : Stmt Page unit unit :=
  let! email := gets (fun p => trim (value (email_input p))) in
  throw (TypeError (lit "Cannot read properties of null")).
End SignupPage.

(** *** [signup.js], the handler that [src/pages/signup.ts] replaced *)

Module LegacySignup.
Section Handler.
(** [window.db] *)
Variable db : option Client.

Definition handleSignup : Stmt Page unit unit :=
  let! email := gets (fun p => value (email_input p)) in
  let! password := gets (fun p => value (password_input p)) in
  let! username := gets (fun p => value (username_input p)) in
  let! c := deref db in
  let! api := deref (auth c) in
  modify (record_call (SdkSignUp email password)) >>
  let! settled := await (signUp api email password) in
  let! reply := deref settled in
  match Provider.error reply with
  | Some error =>
      modify (log (ConsoleLog (lit "Signup error:") (Some (message error)))) >>
      return_ tt
  | None =>
      let! d := deref (data reply) in
      let! u := deref (data_user d) in
      let userId := id u in
      modify (record_call (SdkInsert (lit "profiles") userId username)) >>
      let! settled' := await (from_insert c (lit "profiles") userId username) in
      let! reply' := deref settled' in
      match Provider.error reply' with
      | Some profileError =>
          modify (log (ConsoleLog (lit "Profile insert error:")
                         (Some (message profileError)))) >>
          return_ tt
      | None => modify (log (ConsoleLog (lit "Signup successful!") None))
      end
  end.
End Handler.
End LegacySignup.

(** ** The registry, seen as a list *)

Module Registry.
Import AuthService.

(** The field [authStateListeners] refers to an array object of the store. *)
Definition well_formed (s : State) : Prop :=
  authStateListeners s < length (arrays s).

(** What one call made by a listener does to the contents of the registry. *)
Definition apply_action (a : Action) (l : list Ref) : list Ref :=
  match a with
  | Subscribe callback => l ++ [callback]
  | Invoke handle => filter (fun listener => listener <> captured handle) l
  end.

Definition apply_actions (acts : list Action) (l : list Ref) : list Ref :=
  foldl (fun l a => apply_action a l) l acts.

(** The state after a call, and what the call returned. *)
Definition state_after {R} (c : Stmt State R R) (s : State) : State := (call c s).2.
Definition result_of {R} (c : Stmt State R R) (s : State) : Result R := (call c s).1.

(** The calls to [callback] among the entries of a trace. *)
Definition calls_to (callback : Ref) (trace : list (Ref * option User))
  : list (Ref * option User) :=
  filter (fun i => i.1 = callback) trace.

Section Fanout.
Variable behaviour :
  Ref -> option User -> list (Ref * option User) -> list Action * option JsError.

(** The calls the listeners of [snapshot] make to the service when they are
    called one after the other with [user]. *)
Fixpoint fanout_actions (user : option User) (snapshot : list Ref)
    (history : list (Ref * option User)) : list Action :=
  match snapshot with
  | [] => []
  | callback :: rest =>
      (behaviour callback user history).1
      ++ fanout_actions user rest (history ++ [(callback, user)])
  end.

(** The statement about two registrations of one callback: after
    [onAuthStateChange(callback)] twice and one call of the first handle,
    [callback] is still registered and the next event calls it once. *)
Definition one_registration_survives (s : State) (callback : Ref)
    (event : JsString) (session : option Session) : Prop :=
  let s1 := state_after (onAuthStateChange callback) s in
  let s2 := state_after (onAuthStateChange callback) s1 in
  let s3 := state_after (unsubscribe {| captured := callback |}) s2 in
  let s4 := state_after (authStateHandler behaviour event session) s3 in
  callback ∈ registered s3 /\
  length (calls_to callback (drop (length (invocations s3)) (invocations s4))) = 1.
End Fanout.

End Registry.

(** ** The result contract of the auth operations *)

Module Contract.
Import AuthService.

(** The messages an auth operation may report. *)
Definition readable : list JsString :=
  (snd <$> errorMap)
  ++ [ lit "Authentication failed. Please try again";
       lit "An unexpected error occurred during login";
       lit "An unexpected error occurred during signup";
       lit "Failed to logout";
       lit "An unexpected error occurred during logout" ].

(** Either a success without an error, or a failure with a message and
    neither user nor session. *)
Definition exclusive (r : AuthResponse) : Prop :=
  (success r = true /\ error r = None) \/
  (success r = false /\ user r = None /\ session r = None /\
   exists msg, error r = Some msg /\ msg ∈ readable /\ msg <> []).

(** [this.supabaseClient?.auth] *)
Definition api_of (s : State) : option AuthApi := supabaseClient s ≫= auth.

End Contract.

(** ** Local validation and button state, as the pages are meant to show them *)

Module Validation.

(** The rules of the signup form in their order, each with the message shown
    when it is the first one violated: no field is empty, the email holds an
    "@", the password has at least 6 code units, the username at least 3.
    A rule is given by the test of its violation. *)
Definition signup_rules : list ((JsString -> JsString -> JsString -> bool) * JsString) :=
  [ (fun email password username =>
       bool_decide (email = [] \/ password = [] \/ username = []),
     lit "Please fill in all fields");
    (fun email _ _ => negb (includes email (lit "@")),
     lit "Please enter a valid email address");
    (fun _ password _ => negb (bool_decide (6 <= length password)),
     lit "Password must be at least 6 characters");
    (fun _ _ username => negb (bool_decide (3 <= length username)),
     lit "Username must be at least 3 characters") ].

(** The message of the first rule that the values violate. *)
Fixpoint first_failure (rules : list ((JsString -> JsString -> JsString -> bool) * JsString))
    (email password username : JsString) : option JsString :=
  match rules with
  | [] => None
  | (violated, message) :: rest =>
      if violated email password username then Some message
      else first_failure rest email password username
  end.

(** A submission with the given values was validated: when a rule is
    violated, the message of the first such rule is shown and no call was
    made. *)
Definition validated (email password username : JsString) (p p' : Page) : Prop :=
  forall message,
    first_failure signup_rules email password username = Some message ->
    textContent (errorContainer p') = message /\ calls p' = calls p.

(** The button is as [showLoading] left it: the restore did not run. *)
Definition restore_skipped (p' : Page) : Prop :=
  disabled (button p') = true /\
  (lit "loading" ∈ classList (button p')) /\
  textContent (button p') = [].

(** The button is usable again and shows [label]. *)
Definition restored (label : JsString) (p' : Page) : Prop :=
  disabled (button p') = false /\
  (lit "loading" ∉ classList (button p')) /\
  textContent (button p') = label.

End Validation.

(** ** Two statements about the provider, as the specification makes them *)

Module Stated.
Import AuthService.

(** Construction of the client succeeds. *)
Definition construction_succeeds (createClient : JsString -> JsString -> Result Client)
    (env : Supabase.Env) : Prop :=
  exists c, Supabase.supabaseClient createClient env = Returns c.


End Stated.

(** ** Concrete inputs *)

Module Samples.
Import AuthService.

Definition alice : User := {| id := lit "u1"; email := lit "alice@example.com" |}.

Definition alice_session : Session :=
  {| access_token := lit "token"; session_user := Some alice |}.

(** A provider that rejects the credentials and holds no session. *)
Definition refusing_api : AuthApi := {|
  signInWithPassword := fun _ _ =>
    Returns (Some {| data := Some {| data_user := None; data_session := None |};
                     Provider.error := Some {| message := lit "Invalid login credentials" |} |});
  signUp := fun _ _ =>
    Returns (Some {| data := Some {| data_user := None; data_session := None |};
                     Provider.error := Some {| message := lit "User already registered" |} |});
  signOut := Throws (Error (lit "Failed to fetch"));
  Provider.getSession := Throws (Error (lit "Failed to fetch"));
  Provider.getUser :=
    Returns (Some {| data := Some {| data_user := None; data_session := None |};
                     Provider.error := Some {| message := lit "Auth session missing!" |} |})
|}.

(** A provider that accepts every credential as [alice]. *)
Definition accepting_api : AuthApi := {|
  signInWithPassword := fun _ _ =>
    Returns (Some {| data := Some {| data_user := Some alice;
                                     data_session := Some alice_session |};
                     Provider.error := None |});
  signUp := fun _ _ =>
    Returns (Some {| data := Some {| data_user := Some alice;
                                     data_session := Some alice_session |};
                     Provider.error := None |});
  signOut := Returns (Some {| data := None; Provider.error := None |});
  Provider.getSession :=
    Returns (Some {| data := Some {| data_user := None;
                                     data_session := Some alice_session |};
                     Provider.error := None |});
  Provider.getUser :=
    Returns (Some {| data := Some {| data_user := Some alice; data_session := None |};
                     Provider.error := None |})
|}.

Definition client_of (api : AuthApi) : Client :=
  {| auth := Some api;
     from_insert := fun _ _ _ => Returns (Some {| data := None; Provider.error := None |}) |}.

(** Listeners that do nothing. *)
Definition quiet : Ref -> option User -> list (Ref * option User)
                   -> list Action * option JsError :=
  fun _ _ _ => ([], None).

(** Listener 1 unsubscribes itself the first time it is called and throws;
    the other listeners do nothing. *)
Definition leaving : Ref -> option User -> list (Ref * option User)
                     -> list Action * option JsError :=
  fun callback _ history =>
    if bool_decide (callback = 1) && bool_decide (history = [])
    then ([Invoke {| captured := 1 |}], Some (Error (lit "listener failed")))
    else ([], None).

(** Listener 1 subscribes callback 4 the first time it is called; the other
    listeners do nothing. *)
Definition inviting : Ref -> option User -> list (Ref * option User)
                      -> list Action * option JsError :=
  fun callback _ history =>
    if bool_decide (callback = 1) && bool_decide (history = [])
    then ([Subscribe 4], None)
    else ([], None).

(** A service on which the callbacks 1, 2 and 3 were registered. *)
Definition three_listeners : State :=
  push 3 (push 2 (push 1 (new (Some (client_of accepting_api))))).

(** A form: the values typed into its fields, and a button labelled [label]. *)
Definition input (v : JsString) : Element :=
  {| value := v; textContent := []; classList := []; disabled := false |}.

Definition form (email password username label : JsString) : Page :=
  {| email_input := input email;
     password_input := input password;
     username_input := input username;
     button := {| value := []; textContent := label; classList := [lit "btn"];
                  disabled := false |};
     errorContainer := {| value := []; textContent := []; classList := [lit "error"];
                          disabled := false |};
     navigations := []; Dom.console := []; calls := [] |}.

(** Gateways as the pages see them. *)
Definition login_ok : JsString -> JsString -> Result AuthResponse :=
  fun _ _ => Returns {| success := true; user := Some alice;
                        session := Some alice_session; error := None |}.

Definition signup_ok : JsString -> JsString -> Result AuthResponse := login_ok.

Definition profile_fails : JsString -> JsString -> Result ProfileService.ProfileResponse :=
  fun _ _ => Returns {| ProfileService.success := false;
                        ProfileService.error := Some (lit "Failed to create user profile") |}.

Definition profile_ok : JsString -> JsString -> Result ProfileService.ProfileResponse :=
  fun _ _ => Returns {| ProfileService.success := true; ProfileService.error := None |}.

(** A client whose insert reports a conflict. *)
Definition conflicting_client : Client :=
  {| auth := Some accepting_api;
     from_insert := fun _ _ _ =>
       Returns (Some {| data := None;
                        Provider.error := Some {| message := lit "duplicate key value" |} |}) |}.


(** [window.supabase.createClient] when the SDK's script was not loaded:
    [window.supabase] is [undefined]. *)
Definition sdk_not_loaded : JsString -> JsString -> Result Client :=
  fun _ _ => Throws (TypeError (lit "Cannot read properties of undefined")).

End Samples.

(** ** Runs of the service *)

Module Runs.
Import AuthService.

(** What can happen to a service: a call of one of its public operations, a
    call of a handle it gave out, or an event of the provider's stream. *)
Inductive Op :=
| OnAuthStateChange (callback : Ref)
| CallHandle (handle : Unsubscribe)
| ProviderEvent (event : JsString) (session : option Session)
| Login (email password : JsString)
| Signup (email password : JsString)
| Logout
| GetSession
| GetUser.

Section Runs.
Variable behaviour :
  Ref -> option User -> list (Ref * option User) -> list Action * option JsError.

Definition step (s : State) (op : Op) : State :=
  match op with
  | OnAuthStateChange callback => (call (onAuthStateChange callback) s).2
  | CallHandle handle => (call (unsubscribe handle) s).2
  | ProviderEvent event session => (emit behaviour event session s).2
  | Login email password => (call_returning (login email password) s).2
  | Signup email password => (call_returning (signup email password) s).2
  | Logout => (call_returning logout s).2
  | GetSession => (call_returning getSession s).2
  | GetUser => (call_returning getUser s).2
  end.

(** The service built on [client], after the operations [ops]. *)
Definition run (client : option Client) (ops : list Op) : State :=
  foldl step (new client) ops.

(** The errors the listeners of [snapshot] throw when they are called one
    after the other with [user]. *)
Fixpoint fanout_errors (user : option User) (snapshot : list Ref)
    (history : list (Ref * option User)) : list JsError :=
  match snapshot with
  | [] => []
  | callback :: rest =>
      match (behaviour callback user history).2 with
      | Some e => [e]
      | None => []
      end
      ++ fanout_errors user rest (history ++ [(callback, user)])
  end.
End Runs.

Definition is_event (op : Op) : bool :=
  match op with
  | ProviderEvent _ _ => true
  | _ => false
  end.

End Runs.

(** ** The rules of the login form *)

Module LoginValidation.

(** The rules of the login form in their order, each with its message: the
    email and the password are not empty, the email holds an "@". The third
    argument of a rule is not used. *)
Definition login_rules : list ((JsString -> JsString -> JsString -> bool) * JsString) :=
  [ (fun email password _ => bool_decide (email = [] \/ password = []),
     lit "Please enter both email and password");
    (fun email _ _ => negb (includes email (lit "@")),
     lit "Please enter a valid email address") ].

End LoginValidation.

(** ** The pages wired to the services *)

Module App.

(** [authService.login], [authService.signup] and
    [profileService.createUserProfile] as the page modules import them: the
    methods of the two singletons, [auth] being the state of the one and
    [profile] of the other. *)
Definition authService_login (auth : AuthService.State)
  : JsString -> JsString -> Result AuthService.AuthResponse :=
  fun email password =>
    (call_returning (AuthService.login email password) auth).1.

Definition authService_signup (auth : AuthService.State)
  : JsString -> JsString -> Result AuthService.AuthResponse :=
  fun email password =>
    (call_returning (AuthService.signup email password) auth).1.

Definition profileService_createUserProfile (profile : ProfileService.State)
  : JsString -> JsString -> Result ProfileService.ProfileResponse :=
  fun userId username =>
    (call_returning (ProfileService.createUserProfile userId username) profile).1.

Definition handleLogin (auth : AuthService.State) : Stmt Page unit unit :=
  LoginPage.handleLogin (authService_login auth).

Definition handleSignup (auth : AuthService.State) (profile : ProfileService.State)
  : Stmt Page unit unit :=
  SignupPage.handleSignup (authService_signup auth)
    (profileService_createUserProfile profile).

End App.

(** ** The code that binds a handler to its page *)

Module PageInit.

Inductive ReadyState := Loading | Interactive | Complete.

(** The three objects listeners are added to. *)
Inductive Target := TheDocument | SubmitButton | PasswordInput.

#[global] Instance Target_eq_dec : EqDecision Target.
Proof. solve_decision. Defined.

(** The three functions the module hands to [addEventListener]: the arrow
    function waiting for DOMContentLoaded, the handler itself, and the arrow
    function that calls the handler when the key is Enter. *)
Inductive Listener := WhenLoaded | Submit | SubmitOnEnter.

Record Registration := {
  target : Target;
  type : JsString;
  listener : Listener
}.

(** An event, with the [key] of a keyboard event. *)
Record Event := {
  on : Target;
  event_type : JsString;
  key : JsString
}.

(** The page module whose top-level code runs, [src/pages/login.ts] or
    [src/pages/signup.ts], with the gateways its handler imports. *)
Inductive PageModule :=
| LoginModule (authService_login : JsString -> JsString -> Result AuthService.AuthResponse)
| SignupModule
    (authService_signup : JsString -> JsString -> Result AuthService.AuthResponse)
    (profileService_createUserProfile :
       JsString -> JsString -> Result ProfileService.ProfileResponse).

(** The handler the module binds, and the rules that handler checks. *)
Definition handler (m : PageModule) : Stmt Page unit unit :=
  match m with
  | LoginModule login => LoginPage.handleLogin login
  | SignupModule signup createUserProfile =>
      SignupPage.handleSignup signup createUserProfile
  end.

Definition rules (m : PageModule)
  : list ((JsString -> JsString -> JsString -> bool) * JsString) :=
  match m with
  | LoginModule _ => LoginValidation.login_rules
  | SignupModule _ _ => Validation.signup_rules
  end.

(** The document: its state, whether [getElementById] finds the button and
    the password field (the other elements the handler asks for are in the
    document), the listeners added so far, the page, and the rejections of
    the handler's calls: both listeners drop the promise the handler
    returns, so a rejection is handled by nobody. *)
Record Document := {
  readyState : ReadyState;
  has_button : bool;
  has_password : bool;
  registrations : list Registration;
  page : Page;
  unhandled : list JsError
}.

(** [target.addEventListener(type, listener)] *)
Definition addEventListener (t : Target) (ty : JsString) (l : Listener)
    (d : Document) : Document :=
  {| readyState := readyState d; has_button := has_button d;
     has_password := has_password d;
     registrations := registrations d ++ [{| target := t; type := ty; listener := l |}];
     page := page d; unhandled := unhandled d |}.

Definition with_page (d : Document) (p : Page) : Document :=
  {| readyState := readyState d; has_button := has_button d;
     has_password := has_password d; registrations := registrations d; page := p;
     unhandled := unhandled d |}.

Definition with_readyState (d : Document) (r : ReadyState) : Document :=
  {| readyState := r; has_button := has_button d;
     has_password := has_password d; registrations := registrations d;
     page := page d; unhandled := unhandled d |}.

Definition with_unhandled (d : Document) (es : list JsError) : Document :=
  {| readyState := readyState d; has_button := has_button d;
     has_password := has_password d; registrations := registrations d;
     page := page d; unhandled := es |}.

(** The statements both branches of the module run. *)
Definition bind_handlers (d : Document) : Document :=
  let d1 := if has_button d
            then addEventListener SubmitButton (lit "click") Submit d
            else d in
  if has_password d1
  then addEventListener PasswordInput (lit "keypress") SubmitOnEnter d1
  else d1.

(** The top-level statement of the page module. *)
Definition module_body (d : Document) : Document :=
  match readyState d with
  | Loading => addEventListener TheDocument (lit "DOMContentLoaded") WhenLoaded d
  | _ => bind_handlers d
  end.

(** What a rejected promise adds to the unhandled rejections. *)
Definition rejection (r : Result unit) : list JsError :=
  match r with
  | Returns _ => []
  | Throws e => [e]
  end.

Section Dispatch.
Variable m : PageModule.

(** The body the handler runs on the document: the password field is looked
    up and read before any effect, the button is first used after the
    rules. *)
Definition handler_on (d : Document) : Stmt Page unit unit :=
  match m with
  | LoginModule login =>
      if negb (has_password d) then LoginPage.handleLogin_without_password
      else if negb (has_button d) then LoginPage.handleLogin_without_button
      else LoginPage.handleLogin login
  | SignupModule signup createUserProfile =>
      if negb (has_password d) then SignupPage.handleSignup_without_password
      else if negb (has_button d) then SignupPage.handleSignup_without_button
      else SignupPage.handleSignup signup createUserProfile
  end.

(** A listener calls the handler and drops its promise. *)
Definition call_handler (d : Document) : Document :=
  let run := call (handler_on d) (page d) in
  with_unhandled (with_page d run.2) (unhandled d ++ rejection run.1).

Definition run_listener (l : Listener) (ev : Event) (d : Document) : Document :=
  match l with
  | WhenLoaded => bind_handlers d
  | Submit => call_handler d
  | SubmitOnEnter =>
      if bool_decide (key ev = lit "Enter")
      then call_handler d
      else d
  end.

(** The browser delivers [ev]: the listeners that were added to its target
    for its type run in the order they were added. *)
Definition dispatch (ev : Event) (d : Document) : Document :=
  foldl (fun d r =>
           if bool_decide (target r = on ev) && bool_decide (type r = event_type ev)
           then run_listener (listener r) ev d
           else d)
    d (registrations d).

(** The document has been parsed: DOMContentLoaded is delivered. *)
Definition content_loaded (d : Document) : Document :=
  dispatch {| on := TheDocument; event_type := lit "DOMContentLoaded"; key := [] |}
    (with_readyState d Interactive).

(** The module has been evaluated and the document parsed, in the order the
    state of the document at evaluation implies. *)
Definition ready (d : Document) : Document :=
  match readyState d with
  | Loading => content_loaded (module_body d)
  | _ => module_body d
  end.
End Dispatch.

End PageInit.

(** ** Facts about strings *)

Section StringFacts.

Lemma startsWith_spec (s key : JsString) :
  startsWith s key = true <-> exists post, s = key ++ post.
Proof.
  revert s. induction key as [|k key IH]; intros s; simpl.
  - split; [intros _; by exists s | done].
  - destruct s as [|c s]; simpl.
    + split; [done | intros [post Hp]; discriminate].
    + rewrite andb_true_iff, bool_decide_eq_true, IH. split.
      * intros [-> [post ->]]. by exists post.
      * intros [post Hp]. injection Hp as -> ->. split; [done | by exists post].
Qed.

Lemma includes_spec (s key : JsString) :
  includes s key = true <-> exists pre post, s = pre ++ key ++ post.
Proof.
  induction s as [|c s IH]; simpl.
  - rewrite orb_false_r, startsWith_spec. split.
    + intros [post Hp]. by exists [], post.
    + intros [pre [post Hp]]. destruct pre; [by exists post|discriminate].
  - rewrite orb_true_iff, startsWith_spec, IH. split.
    + intros [[post Hp] | [pre [post Hp]]].
      * by exists [], post.
      * exists (c :: pre), post. by rewrite Hp.
    + intros [[|c' pre] [post Hp]].
      * left. by exists post.
      * right. injection Hp as -> ->. by exists pre, post.
Qed.

Lemma includes_false (s key : JsString) :
  includes s key = false <-> ~ exists pre post, s = pre ++ key ++ post.
Proof. rewrite <- includes_spec. by destruct (includes s key). Qed.

End StringFacts.

(** ** The error-normalization table *)

Section ErrorTable.
Import AuthService.

Lemma for_entries_none entries rawError :
  for_entries entries rawError = None <->
  forall key message, (key, message) ∈ entries -> includes rawError key = false.
Proof.
  induction entries as [|[k m] rest IH]; simpl.
  - split; [intros _ key message H; by apply elem_of_nil in H | done].
  - destruct (includes rawError k) eqn:E.
    + split; [done|]. intros H. specialize (H k m (list_elem_of_here _ _)).
      congruence.
    + rewrite IH. split.
      * intros H key message [Heq|Hin]%elem_of_cons; [congruence | eauto].
      * intros H key message Hin. apply (H key message). by right.
Qed.

Lemma for_entries_first entries rawError i key message :
  entries !! i = Some (key, message) ->
  includes rawError key = true ->
  (forall j key' message', j < i -> entries !! j = Some (key', message') ->
                           includes rawError key' = false) ->
  for_entries entries rawError = Some message.
Proof.
  revert i. induction entries as [|[k m] rest IH]; intros i Hi Hinc Hbefore.
  - done.
  - destruct i as [|i]; simpl in *.
    + injection Hi as -> ->. by rewrite Hinc.
    + rewrite (Hbefore 0 k m); [|lia|done].
      apply (IH i); [done..|].
      intros j key' message' Hj Hlook. apply (Hbefore (S j) key' message'); [lia|done].
Qed.

End ErrorTable.

(** ** The listener registry and the fan-out *)

Section ListenerFacts.
Import AuthService Registry.

Variable behaviour :
  Ref -> option User -> list (Ref * option User) -> list Action * option JsError.

(** While a [forEach] over the array object at [O] is running, the elements
    [l0] it started with stay where they are. *)
Definition stable (O : Loc) (l0 : list Ref) (s : State) : Prop :=
  well_formed s /\ O < length (arrays s) /\ l0 `prefix_of` array_at s O.

Lemma registered_push callback s :
  well_formed s -> registered (push callback s) = registered s ++ [callback].
Proof.
  intros Hwf. unfold registered, array_at, push. simpl.
  rewrite list_lookup_alter_eq.
  destruct (lookup_lt_is_Some_2 _ _ Hwf) as [l ->]. reflexivity.
Qed.

Lemma push_stable O l0 callback s :
  stable O l0 s -> stable O l0 (push callback s).
Proof.
  intros (Hwf & HO & Hpre). unfold stable, well_formed, array_at, push in *. simpl.
  rewrite length_alter. split; [done|]. split; [done|].
  destruct (decide (authStateListeners s = O)) as [->|Hne].
  - rewrite list_lookup_alter_eq.
    destruct (lookup_lt_is_Some_2 _ _ HO) as [l Hl]. rewrite Hl in *. simpl in *.
    by apply prefix_app_r.
  - by rewrite list_lookup_alter_ne.
Qed.

Lemma registered_reassign callback s :
  registered (reassign_filtered callback s)
  = filter (fun listener => listener <> callback) (registered s).
Proof.
  unfold registered at 1. unfold array_at, reassign_filtered. simpl.
  by rewrite list_lookup_middle.
Qed.

Lemma reassign_stable O l0 callback s :
  stable O l0 s -> stable O l0 (reassign_filtered callback s).
Proof.
  intros (Hwf & HO & Hpre). unfold stable, well_formed, array_at, reassign_filtered in *.
  simpl. rewrite length_app. simpl. split; [lia|]. split; [lia|].
  by rewrite lookup_app_l.
Qed.

Lemma run_actions_spec {R} O l0 acts s :
  stable O l0 s ->
  exists s', run_actions (R:=R) acts s = (Normal tt, s') /\
             stable O l0 s' /\
             registered s' = apply_actions acts (registered s) /\
             invocations s' = invocations s /\
             console s' = console s.
Proof.
  revert s. induction acts as [|a acts IH]; intros s Hst.
  - by exists s.
  - destruct a as [callback|handle].
    + destruct (IH (push callback s) (push_stable _ _ _ _ Hst))
        as (s' & Hrun & Hst' & Hreg & Hinv & Hcon).
      exists s'. split; [exact Hrun|]. split; [done|].
      rewrite Hreg, registered_push by apply Hst. done.
    + destruct (IH (reassign_filtered (captured handle) s)
                   (reassign_stable _ _ _ _ Hst))
        as (s' & Hrun & Hst' & Hreg & Hinv & Hcon).
      exists s'. split; [exact Hrun|]. split; [done|].
      rewrite Hreg, registered_reassign. done.
Qed.

(** One step of the loop of [notifyListeners]: the listener is called, what
    it throws is caught, and the loop goes on. *)
Definition guarded (user : option User) (callback : Ref) : Stmt State unit unit :=
  try_catch
    (invoke behaviour callback user)
    (fun err =>
       console_error (lit "Error in auth state change callback:") (Some err)).

Lemma guarded_spec O l0 user callback s :
  stable O l0 s ->
  exists s', guarded user callback s = (Normal tt, s') /\
             stable O l0 s' /\
             registered s'
             = apply_actions (behaviour callback user (invocations s)).1 (registered s) /\
             invocations s' = invocations s ++ [(callback, user)].
Proof.
  intros Hst.
  set (s0 := with_invocation s (callback, user)).
  assert (Hst0 : stable O l0 s0) by exact Hst.
  destruct (run_actions_spec (R:=unit) O l0
              (behaviour callback user (invocations s)).1 s0 Hst0)
    as (s' & Hrun & Hst' & Hreg & Hinv & Hcon).
  unfold guarded, try_catch, invoke, bind, gets, modify. simpl.
  fold s0. rewrite Hrun.
  destruct (behaviour callback user (invocations s)).2 as [e|]; simpl.
  - eexists. split; [reflexivity|]. repeat split; try apply Hst'; done.
  - exists s'. repeat split; try apply Hst'; done.
Qed.

Lemma forEach_from_spec O l0 user n : forall k s,
  stable O l0 s ->
  k + n = length l0 ->
  exists s', forEach_from O k n (guarded user) s = (Normal tt, s') /\
             stable O l0 s' /\
             invocations s'
             = invocations s ++ ((fun callback => (callback, user)) <$> drop k l0) /\
             registered s'
             = apply_actions (fanout_actions behaviour user (drop k l0) (invocations s))
                 (registered s).
Proof.
  induction n as [|n IH]; intros k s Hst Hk.
  - exists s. rewrite drop_ge by lia. simpl. by rewrite app_nil_r.
  - destruct (lookup_lt_is_Some_2 l0 k ltac:(lia)) as [x Hx].
    assert (Hread : array_at s O !! k = Some x).
    { destruct Hst as (_ & _ & Hpre). by eapply prefix_lookup_Some. }
    destruct (guarded_spec O l0 user x s Hst) as (s1 & Hg & Hst1 & Hreg1 & Hinv1).
    destruct (IH (S k) s1 Hst1 ltac:(lia)) as (s' & Hrun & Hst' & Hinv & Hreg).
    exists s'. split.
    + simpl. unfold bind at 1. unfold gets. simpl. rewrite Hread.
      unfold bind. rewrite Hg. exact Hrun.
    + split; [done|]. rewrite (drop_S _ _ _ Hx). simpl. split.
      * rewrite Hinv, Hinv1, <- app_assoc. done.
      * rewrite Hreg, Hreg1, Hinv1. unfold apply_actions. by rewrite foldl_app.
Qed.

Lemma notifyListeners_spec user s :
  well_formed s ->
  exists s', notifyListeners behaviour user s = (Normal tt, s') /\
             well_formed s' /\
             invocations s'
             = invocations s ++ ((fun callback => (callback, user)) <$> registered s) /\
             registered s'
             = apply_actions (fanout_actions behaviour user (registered s) (invocations s))
                 (registered s) /\
             registered s `prefix_of` array_at s' (authStateListeners s).
Proof.
  intros Hwf.
  assert (Hst : stable (authStateListeners s) (registered s) s).
  { split; [done|]. split; [done|]. reflexivity. }
  destruct (forEach_from_spec (authStateListeners s) (registered s) user
              (length (registered s)) 0 s Hst ltac:(lia))
    as (s' & Hrun & Hst' & Hinv & Hreg).
  exists s'. split; [exact Hrun|]. split; [apply Hst'|]. split; [done|]. split; [done|].
apply Hst'.
Qed.

End ListenerFacts.

Section ListenerClaims.
Import AuthService Registry.

Lemma or_else_nullish {A} (a b : option A) : or_else a b = nullish a b.
Proof. by destruct a. Qed.

Lemma apply_actions_app acts1 acts2 l :
  apply_actions (acts1 ++ acts2) l = apply_actions acts2 (apply_actions acts1 l).
Proof. unfold apply_actions. by rewrite foldl_app. Qed.

Lemma apply_actions_absent callback acts : forall l,
  callback ∉ l ->
  Subscribe callback ∉ acts ->
  callback ∉ apply_actions acts l.
Proof.
  induction acts as [|a acts IH]; intros l Hl Hacts; [done|].
  apply not_elem_of_cons in Hacts as [Ha Hacts].
  change (callback ∉ apply_actions acts (apply_action a l)).
  apply IH; [|done]. destruct a as [c|h]; simpl.
  - rewrite elem_of_app, list_elem_of_singleton. intros [?| ->]; [done|]. by apply Ha.
  - rewrite list_elem_of_filter. tauto.
Qed.

Lemma call_normal {R} (c : Stmt State R R) s r s' :
  c s = (Normal r, s') -> call c s = (Returns r, s').
Proof. unfold call. by intros ->. Qed.

Lemma calls_to_absent callback (user : option User) (l : list Ref) :
  callback ∉ l ->
  calls_to callback ((fun c => (c, user)) <$> l) = [].
Proof.
  unfold calls_to. induction l as [|x l IH]; intros Hl; [done|].
  apply not_elem_of_cons in Hl as [Hx Hl]. simpl.
  rewrite filter_cons_False by (simpl; congruence). by apply IH.
Qed.

Lemma authStateHandler_spec behaviour event session s :
  well_formed s ->
  exists s',
    call (authStateHandler behaviour event session) s = (Returns tt, s') /\
    well_formed s' /\
    invocations s'
    = invocations s
      ++ ((fun callback => (callback, nullish (session ≫= session_user) None))
            <$> registered s).
Proof.
  intros Hwf.
  destruct (notifyListeners_spec behaviour (nullish (session ≫= session_user) None)
              s Hwf) as (s' & Hrun & Hwf' & Hinv & _).
  exists s'. split; [|by split].
  apply call_normal. unfold authStateHandler. rewrite or_else_nullish. exact Hrun.
Qed.

(** C10. When handles are invoked (or listeners added) while a fan-out is
    running, every listener that was registered when the fan-out began is
    still called in it: the array object the loop walks keeps its elements,
    the handle assigns a new one to the field. What was removed is missing
    from the registry afterwards, so that the next event no longer reaches
    it. *)
Theorem unsubscribe_during_fanout
    (behaviour : Ref -> option User -> list (Ref * option User)
                 -> list Action * option JsError)
    (user : option User) (s : State) :
  well_formed s ->
  exists s',
    notifyListeners behaviour user s = (Normal tt, s') /\
    invocations s'
    = invocations s ++ ((fun callback => (callback, user)) <$> registered s) /\
    registered s `prefix_of` array_at s' (authStateListeners s) /\
    registered s'
    = apply_actions (fanout_actions behaviour user (registered s) (invocations s))
        (registered s) /\
    (forall handle before after,
        fanout_actions behaviour user (registered s) (invocations s)
        = before ++ Invoke handle :: after ->
        Subscribe (captured handle) ∉ after ->
        captured handle ∉ registered s') /\
    (forall user', exists s'',
        notifyListeners behaviour user' s' = (Normal tt, s'') /\
        invocations s''
        = invocations s' ++ ((fun callback => (callback, user')) <$> registered s')).
Proof.
  intros Hwf.
  destruct (notifyListeners_spec behaviour user s Hwf)
    as (s' & Hrun & Hwf' & Hinv & Hreg & Hold).
  exists s'. split; [exact Hrun|]. split; [done|]. split; [done|]. split; [done|]. split.
  - intros handle before after Hacts Hafter. rewrite Hreg, Hacts.
    rewrite apply_actions_app.
    change (apply_actions (Invoke handle :: after) ?l)
      with (apply_actions after (apply_action (Invoke handle) l)).
    apply apply_actions_absent; [|done]. simpl.
    rewrite list_elem_of_filter. tauto.
  - intros user'.
    destruct (notifyListeners_spec behaviour user' s' Hwf') as (s'' & Hrun' & _ & Hinv' & _).
    by exists s''.
Qed.

Lemma unsubscribe_during_fanout_witness :
  exists s',
    notifyListeners Samples.leaving (Some Samples.alice) Samples.three_listeners
    = (Normal tt, s') /\
    invocations s' = [(1, Some Samples.alice); (2, Some Samples.alice);
                      (3, Some Samples.alice)] /\
    registered s' = [2; 3] /\
    1 ∉ registered s'.
Proof.
  destruct (unsubscribe_during_fanout Samples.leaving (Some Samples.alice)
              Samples.three_listeners)
    as (s' & Hrun & Hinv & _ & Hreg & Hgone & _).
  - unfold well_formed. vm_compute. lia.
  - exists s'. split; [exact Hrun|]. split; [rewrite Hinv; reflexivity|].
    split; [rewrite Hreg; reflexivity|].
    apply (Hgone {| captured := 1 |} [] []); [reflexivity|].
    apply not_elem_of_nil.
Defined.

(** C2, as stated, fails: on a fresh service, after two registrations of
    callback 7 and one call of a handle, 7 is registered no more and the
    next event does not reach it. *)
Lemma one_registration_does_not_survive :
  ~ one_registration_survives Samples.quiet
      (new (Some (Samples.client_of Samples.accepting_api))) 7
      (lit "SIGNED_IN") (Some Samples.alice_session).
Proof.
  unfold one_registration_survives. vm_compute. intros [H _]. inversion H.
Qed.

(** C2, amended. A handle removes every registration of the callback it
    was made for: after two registrations of [callback] and one call of
    either handle, the registry holds what it held before without any
    [callback], in the same order, and the next event calls the listeners
    left and never [callback]. *)
Theorem unsubscribe_removes_every_registration
    (behaviour : Ref -> option User -> list (Ref * option User)
                 -> list Action * option JsError)
    (s : State) (callback : Ref) (event : JsString) (session : option Session) :
  well_formed s ->
  let s1 := state_after (onAuthStateChange callback) s in
  let s2 := state_after (onAuthStateChange callback) s1 in
  forall handle,
    result_of (onAuthStateChange callback) s = Returns handle \/
    result_of (onAuthStateChange callback) s1 = Returns handle ->
    let s3 := state_after (unsubscribe handle) s2 in
    let s4 := state_after (authStateHandler behaviour event session) s3 in
    registered s2 = registered s ++ [callback; callback] /\
    registered s3 = filter (fun listener => listener <> callback) (registered s) /\
    (callback ∉ registered s3) /\
    invocations s4
    = invocations s3
      ++ ((fun l => (l, nullish (session ≫= session_user) None)) <$> registered s3) /\
    calls_to callback (drop (length (invocations s3)) (invocations s4)) = [].
Proof.
  intros Hwf s1 s2 handle Hhandle s3 s4.
  assert (Hs1 : s1 = push callback s) by reflexivity.
  assert (Hs2 : s2 = push callback s1) by reflexivity.
  assert (Hcap : captured handle = callback).
  { destruct Hhandle as [H|H]; injection H as <-; reflexivity. }
  assert (Hs3 : s3 = reassign_filtered callback s2).
  { unfold s3, state_after, call, unsubscribe, modify. simpl. by rewrite Hcap. }
  assert (Hwf1 : well_formed s1).
  { rewrite Hs1. unfold well_formed, push. simpl. by rewrite length_alter. }
  assert (Hreg2 : registered s2 = registered s ++ [callback; callback]).
  { rewrite Hs2, registered_push, Hs1, registered_push, <- app_assoc by done. done. }
  assert (Hreg3 : registered s3
                  = filter (fun listener => listener <> callback) (registered s)).
  { rewrite Hs3, registered_reassign, Hreg2, filter_app.
    rewrite (filter_cons_False _ callback) by (intros H; by apply H).
    rewrite (filter_cons_False _ callback) by (intros H; by apply H).
    by rewrite filter_nil, app_nil_r. }
  assert (Hgone : callback ∉ registered s3).
  { rewrite Hreg3, list_elem_of_filter. tauto. }
  assert (Hwf3 : well_formed s3).
  { rewrite Hs3. unfold well_formed, reassign_filtered. simpl.
    rewrite length_app. simpl. lia. }
  destruct (authStateHandler_spec behaviour event session s3 Hwf3)
    as (s' & Hcall & _ & Hinv).
  assert (Hs4 : s4 = s') by (unfold s4, state_after; by rewrite Hcall).
  split; [done|]. split; [done|]. split; [done|]. rewrite Hs4, Hinv.
  split; [done|]. rewrite drop_app_length. by apply calls_to_absent.
Qed.

Lemma unsubscribe_removes_every_registration_witness :
  registered (state_after (unsubscribe {| captured := 2 |})
                (push 2 (push 2 Samples.three_listeners))) = [1; 3].
Proof.
  pose proof (unsubscribe_removes_every_registration Samples.quiet
                Samples.three_listeners 2 (lit "SIGNED_IN") None) as H.
  cbv zeta in H.
  assert (Hwf : well_formed Samples.three_listeners).
  { unfold well_formed. vm_compute. lia. }
  destruct (H Hwf {| captured := 2 |} (or_introl eq_refl)) as (_ & Hreg & _).
  etransitivity; [exact Hreg | reflexivity].
Defined.

End ListenerClaims.

(** ** The operations of the auth gateway *)

Section AuthOperations.
Import AuthService Contract.

Ltac run_stmt :=
  unfold call_returning, credentials_call, try_catch, this_auth, bind, gets,
    deref, await, return_, throw, ret; simpl.

Ltac in_list := vm_compute; repeat constructor.

Ltac same_call :=
  repeat match goal with
         | E : ?x = _, H : ?x = _ |- _ => rewrite E in H
         end.

Lemma readable_nonempty msg : msg ∈ readable -> msg <> [].
Proof.
  intros Hin ->. vm_compute in Hin.
  repeat (apply elem_of_cons in Hin as [Hin|Hin]; [discriminate|]).
  by apply elem_of_nil in Hin.
Qed.

Lemma for_entries_some entries rawError message :
  for_entries entries rawError = Some message ->
  message ∈ (snd <$> entries).
Proof.
  induction entries as [|[k m] rest IH]; simpl; [done|].
  destruct (includes rawError k).
  - intros [= ->]. by left.
  - intros H. right. by apply IH.
Qed.

Lemma formatErrorMessage_readable rawError :
  formatErrorMessage rawError ∈ readable.
Proof.
  unfold formatErrorMessage, readable.
  destruct (for_entries errorMap rawError) as [m|] eqn:E.
  - apply elem_of_app. left. by eapply for_entries_some.
  - apply elem_of_app. right. by left.
Qed.

Lemma failure_exclusive msg : msg ∈ readable -> exclusive (failure msg).
Proof.
  intros Hin. right. repeat split. exists msg.
  split; [done|]. split; [done|]. by apply readable_nonempty.
Qed.

Lemma credentials_call_spec op unexpected email password s :
  unexpected ∈ readable ->
  exists r,
    call_returning (credentials_call op unexpected email password) s = (Returns r, s) /\
    exclusive r /\
    (forall api reply err,
        api_of s = Some api ->
        op api email password = Returns (Some reply) ->
        Provider.error reply = Some err ->
        r = failure (formatErrorMessage (message err))) /\
    (forall api e,
        api_of s = Some api ->
        op api email password = Throws e ->
        r = failure unexpected) /\
    (forall api reply d,
        api_of s = Some api ->
        op api email password = Returns (Some reply) ->
        Provider.error reply = None ->
        data reply = Some d ->
        r = {| success := true; user := data_user d; session := data_session d;
               error := None |}).
Proof.
  intros Hun. unfold api_of. run_stmt.
  destruct (supabaseClient s) as [c|]; simpl;
    [destruct (auth c) as [api|]; simpl|].
  - destruct (op api email password) as [[reply|]|e] eqn:Eop; simpl.
    + destruct (Provider.error reply) as [err|] eqn:Eerr; simpl.
      * eexists. split; [reflexivity|]. split.
        { apply failure_exclusive, formatErrorMessage_readable. }
        repeat split; intros; congruence.
      * destruct (data reply) as [d|] eqn:Ed; simpl.
        { eexists. split; [reflexivity|]. split; [by left|].
          repeat split; intros; congruence. }
        { eexists. split; [reflexivity|]. split; [by apply failure_exclusive|].
          repeat split; intros; congruence. }
    + eexists. split; [reflexivity|]. split; [by apply failure_exclusive|].
      repeat split; intros; congruence.
    + eexists. split; [reflexivity|]. split; [by apply failure_exclusive|].
      repeat split; intros; congruence.
  - eexists. split; [reflexivity|]. split; [by apply failure_exclusive|].
    repeat split; intros; congruence.
  - eexists. split; [reflexivity|]. split; [by apply failure_exclusive|].
    repeat split; intros; congruence.
Qed.

Lemma logout_spec s :
  exists r,
    call_returning logout s = (Returns r, s) /\
    exclusive r /\
    (forall api e,
        api_of s = Some api -> signOut api = Throws e ->
        r = failure (lit "An unexpected error occurred during logout")) /\
    (forall api reply err,
        api_of s = Some api -> signOut api = Returns (Some reply) ->
        Provider.error reply = Some err ->
        r = failure (lit "Failed to logout")).
Proof.
  assert (H1 : lit "Failed to logout" ∈ readable) by in_list.
  assert (H2 : lit "An unexpected error occurred during logout" ∈ readable)
    by in_list.
  unfold api_of, logout. run_stmt.
  destruct (supabaseClient s) as [c|]; simpl;
    [destruct (auth c) as [api|]; simpl|].
  - destruct (signOut api) as [[reply|]|e] eqn:Eop; simpl.
    + destruct (Provider.error reply) as [err|] eqn:Eerr; simpl.
      * eexists. split; [reflexivity|]. split; [by apply failure_exclusive|].
        repeat split; intros; congruence.
      * eexists. split; [reflexivity|]. split; [by left|].
        repeat split; intros; congruence.
    + eexists. split; [reflexivity|]. split; [by apply failure_exclusive|].
      repeat split; intros; congruence.
    + eexists. split; [reflexivity|]. split; [by apply failure_exclusive|].
      repeat split; intros; congruence.
  - eexists. split; [reflexivity|]. split; [by apply failure_exclusive|].
    repeat split; intros; congruence.
  - eexists. split; [reflexivity|]. split; [by apply failure_exclusive|].
    repeat split; intros; congruence.
Qed.

(** C1. [formatErrorMessage] scans the five entries of the table in their
    order and answers with the message of the first key that occurs in the
    raw string; a raw string in which "Invalid login credentials" occurs
    yields "Invalid email or password" whatever else it holds, and a raw
    string in which no key occurs yields "Authentication failed. Please try
    again". [login] and [signup] report the message of a provider error
    through it. *)
Theorem formatErrorMessage_first_match (rawError : JsString) :
  length errorMap = 5 /\
  (forall i key message,
      errorMap !! i = Some (key, message) ->
      (exists pre post, rawError = pre ++ key ++ post) ->
      (forall j key' message',
          j < i -> errorMap !! j = Some (key', message') ->
          ~ exists pre post, rawError = pre ++ key' ++ post) ->
      formatErrorMessage rawError = message) /\
  ((exists pre post, rawError = pre ++ lit "Invalid login credentials" ++ post) ->
   formatErrorMessage rawError = lit "Invalid email or password") /\
  ((forall key message,
       (key, message) ∈ errorMap ->
       ~ exists pre post, rawError = pre ++ key ++ post) ->
   formatErrorMessage rawError = lit "Authentication failed. Please try again") /\
  (forall s email password api reply,
      api_of s = Some api ->
      Provider.error reply = Some {| message := rawError |} ->
      (signInWithPassword api email password = Returns (Some reply) ->
       call_returning (login email password) s
       = (Returns (failure (formatErrorMessage rawError)), s)) /\
      (signUp api email password = Returns (Some reply) ->
       call_returning (signup email password) s
       = (Returns (failure (formatErrorMessage rawError)), s))).
Proof.
  assert (Hfirst : forall i key message,
      errorMap !! i = Some (key, message) ->
      (exists pre post, rawError = pre ++ key ++ post) ->
      (forall j key' message',
          j < i -> errorMap !! j = Some (key', message') ->
          ~ exists pre post, rawError = pre ++ key' ++ post) ->
      formatErrorMessage rawError = message).
  { intros i key message Hi Hocc Hbefore. unfold formatErrorMessage.
    rewrite (for_entries_first errorMap rawError i key message); [done|done| |].
    - by apply includes_spec.
    - intros j key' message' Hj Hlook. apply includes_false. eauto. }
  split; [reflexivity|]. split; [exact Hfirst|]. split; [|split].
  - intros Hocc.
    apply (Hfirst 0 (lit "Invalid login credentials")); [reflexivity|done|].
    intros j ? ? Hj. lia.
  - intros Hnone. unfold formatErrorMessage.
    assert (for_entries errorMap rawError = None) as ->; [|done].
    apply for_entries_none. intros key message Hin.
    apply includes_false. eauto.
  - intros s email password api reply Hapi Herr. split; intros Hop.
    + destruct (credentials_call_spec signInWithPassword
                  (lit "An unexpected error occurred during login") email password s)
        as (r & Hcall & _ & Hrep & _); [in_list|].
      fold (login email password) in Hcall. rewrite Hcall.
      by rewrite (Hrep api reply _ Hapi Hop Herr).
    + destruct (credentials_call_spec signUp
                  (lit "An unexpected error occurred during signup") email password s)
        as (r & Hcall & _ & Hrep & _); [in_list|].
      fold (signup email password) in Hcall. rewrite Hcall.
      by rewrite (Hrep api reply _ Hapi Hop Herr).
Qed.

Lemma formatErrorMessage_first_match_witness :
  formatErrorMessage (lit "AuthApiError: Invalid login credentials; User not found")
  = lit "Invalid email or password" /\
  formatErrorMessage (lit "Request rate limit reached")
  = lit "Authentication failed. Please try again" /\
  call_returning (login (lit "alice@example.com") (lit "wrong"))
    (new (Some (Samples.client_of Samples.refusing_api)))
  = (Returns (failure (lit "Invalid email or password")),
     new (Some (Samples.client_of Samples.refusing_api))).
Proof.
  split; [|split].
  - apply (formatErrorMessage_first_match
             (lit "AuthApiError: Invalid login credentials; User not found")).
    exists (lit "AuthApiError: "), (lit "; User not found"). reflexivity.
  - apply (formatErrorMessage_first_match (lit "Request rate limit reached")).
    intros key message Hin. apply includes_false.
    unfold errorMap in Hin.
    repeat (apply elem_of_cons in Hin as [Hin|Hin]; [by injection Hin as -> ->|]).
    by apply elem_of_nil in Hin.
  - destruct (formatErrorMessage_first_match (lit "Invalid login credentials"))
      as (_ & _ & _ & _ & Hlogin).
    destruct (Hlogin (new (Some (Samples.client_of Samples.refusing_api)))
                (lit "alice@example.com") (lit "wrong") Samples.refusing_api
                {| data := Some {| data_user := None; data_session := None |};
                   Provider.error := Some {| message := lit "Invalid login credentials" |} |}
                eq_refl eq_refl) as [H _].
    exact (H eq_refl).
Defined.

(** C9. [login], [signup] and [logout] return, whatever the provider does:
    the promise is fulfilled with a result that is either a success without
    an error or a failure with a message, and a call of the SDK that throws
    or rejects is reported as the failure of the operation. *)
Theorem auth_operations_return_exclusive_results
    (s : State) (email password : JsString) :
  (exists r,
      call_returning (login email password) s = (Returns r, s) /\ exclusive r /\
      (forall api e,
          api_of s = Some api -> signInWithPassword api email password = Throws e ->
          r = failure (lit "An unexpected error occurred during login"))) /\
  (exists r,
      call_returning (signup email password) s = (Returns r, s) /\ exclusive r /\
      (forall api e,
          api_of s = Some api -> signUp api email password = Throws e ->
          r = failure (lit "An unexpected error occurred during signup"))) /\
  (exists r,
      call_returning logout s = (Returns r, s) /\ exclusive r /\
      (forall api e,
          api_of s = Some api -> signOut api = Throws e ->
          r = failure (lit "An unexpected error occurred during logout"))).
Proof.
  split; [|split].
  - destruct (credentials_call_spec signInWithPassword
                (lit "An unexpected error occurred during login") email password s)
      as (r & Hcall & Hex & _ & Hthrow & _); [in_list|].
    exists r. split; [exact Hcall|]. split; [done|]. exact Hthrow.
  - destruct (credentials_call_spec signUp
                (lit "An unexpected error occurred during signup") email password s)
      as (r & Hcall & Hex & _ & Hthrow & _); [in_list|].
    exists r. split; [exact Hcall|]. split; [done|]. exact Hthrow.
  - destruct (logout_spec s) as (r & Hcall & Hex & Hthrow & _).
    exists r. split; [exact Hcall|]. split; [done|]. exact Hthrow.
Qed.

Lemma auth_operations_return_exclusive_results_witness :
  call_returning logout (new (Some (Samples.client_of Samples.refusing_api)))
  = (Returns (failure (lit "An unexpected error occurred during logout")),
     new (Some (Samples.client_of Samples.refusing_api))).
Proof.
  destruct (auth_operations_return_exclusive_results
              (new (Some (Samples.client_of Samples.refusing_api)))
              (lit "alice@example.com") (lit "secret1"))
    as (_ & _ & r & Hcall & _ & Hthrow).
  rewrite Hcall. f_equal. f_equal.
  apply (Hthrow Samples.refusing_api (Error (lit "Failed to fetch"))); reflexivity.
Defined.




End AuthOperations.

(** ** The provider client *)

Section ClientConstruction.
Import Supabase.

Variable createClient : JsString -> JsString -> Result Client.

(** C8, amended. With both configuration values present and non-empty the
    module hands them to the SDK's factory and yields what the factory
    yields: the client when it returns one, and what it throws when it
    throws; the module adds no failure of its own. With a value missing or
    empty it throws its own error, whatever the factory would do, and yields
    no client. *)
Theorem supabaseClient_construction (env : Env) :
  (forall url key,
      VITE_SUPABASE_URL env = Some url -> VITE_SUPABASE_ANON_KEY env = Some key ->
      url <> [] -> key <> [] ->
      supabaseClient createClient env = createClient url key /\
      (forall c, createClient url key = Returns c ->
                 supabaseClient createClient env = Returns c) /\
      (forall e, createClient url key = Throws e ->
                 supabaseClient createClient env = Throws e)) /\
  (VITE_SUPABASE_URL env = None \/ VITE_SUPABASE_URL env = Some [] \/
   VITE_SUPABASE_ANON_KEY env = None \/ VITE_SUPABASE_ANON_KEY env = Some [] ->
   supabaseClient createClient env
   = Throws (Error (lit "Missing Supabase environment variables")) /\
   forall c, supabaseClient createClient env <> Returns c).
Proof.
  unfold supabaseClient, module_body, call, bind, when, await, throw, ret.
  destruct env as [url key]. simpl. split.
  - intros u k -> -> Hu Hk. destruct u; [done|]. destruct k; [done|]. simpl.
    destruct (createClient _ _) as [c0|e]; simpl; (split; [reflexivity|]);
      split; intros x Hx; exact Hx.
  - intros Hmissing.
    assert (Hm : missing url || missing key = true).
    { destruct Hmissing as [-> | [-> | [-> | ->]]]; simpl; try done; by rewrite orb_true_r. }
    rewrite Hm. simpl. split; [done|]. intros c. discriminate.
Qed.

End ClientConstruction.

Lemma supabaseClient_construction_witness :
  Supabase.supabaseClient (fun _ _ => Returns (Samples.client_of Samples.accepting_api))
    {| Supabase.VITE_SUPABASE_URL := Some (lit "https://project.supabase.co");
       Supabase.VITE_SUPABASE_ANON_KEY := Some (lit "anon-key") |}
  = Returns (Samples.client_of Samples.accepting_api) /\
  Supabase.supabaseClient (fun _ _ => Returns (Samples.client_of Samples.accepting_api))
    {| Supabase.VITE_SUPABASE_URL := Some (lit "https://project.supabase.co");
       Supabase.VITE_SUPABASE_ANON_KEY := None |}
  = Throws (Error (lit "Missing Supabase environment variables")).
Proof.
  split.
  - destruct (proj1 (supabaseClient_construction
                       (fun _ _ => Returns (Samples.client_of Samples.accepting_api))
                       {| Supabase.VITE_SUPABASE_URL := Some (lit "https://project.supabase.co");
                          Supabase.VITE_SUPABASE_ANON_KEY := Some (lit "anon-key") |})
                (lit "https://project.supabase.co") (lit "anon-key")
                eq_refl eq_refl ltac:(discriminate) ltac:(discriminate)) as (_ & H & _).
    apply H. reflexivity.
  - destruct (proj2 (supabaseClient_construction
                       (fun _ _ => Returns (Samples.client_of Samples.accepting_api))
                       {| Supabase.VITE_SUPABASE_URL := Some (lit "https://project.supabase.co");
                          Supabase.VITE_SUPABASE_ANON_KEY := None |})) as [H _].
    + right. right. left. reflexivity.
    + exact H.
Defined.

(** C8, as stated, fails: with both values present and non-empty and the
    SDK's script not loaded, the factory call throws and no client is
    constructed. *)
Lemma construction_fails_when_factory_throws :
  let env := {| Supabase.VITE_SUPABASE_URL := Some (lit "https://project.supabase.co");
                Supabase.VITE_SUPABASE_ANON_KEY := Some (lit "anon-key") |} in
  Supabase.missing (Supabase.VITE_SUPABASE_URL env) = false /\
  Supabase.missing (Supabase.VITE_SUPABASE_ANON_KEY env) = false /\
  ~ Stated.construction_succeeds Samples.sdk_not_loaded env.
Proof.
  cbv zeta. split; [reflexivity|]. split; [reflexivity|].
  intros [c Hc]. vm_compute in Hc. discriminate Hc.
Qed.

(** ** The form handlers *)

Section PageFacts.
Import Validation.

Lemma empty_check (email password username : JsString) :
  negb (truthyStr email) || negb (truthyStr password) || negb (truthyStr username)
  = bool_decide (email = [] \/ password = [] \/ username = []).
Proof.
  destruct email, password, username; reflexivity.
Qed.

Lemma length_check n (s : JsString) :
  bool_decide (length s < n) = negb (bool_decide (n <= length s)).
Proof.
  destruct (decide (n <= length s)).
  - rewrite bool_decide_eq_false_2, bool_decide_eq_true_2 by lia. done.
  - rewrite bool_decide_eq_true_2, bool_decide_eq_false_2 by lia. done.
Qed.

Lemma first_failure_first rules email password username i violated message :
  rules !! i = Some (violated, message) ->
  violated email password username = true ->
  (forall j violated' message',
      j < i -> rules !! j = Some (violated', message') ->
      violated' email password username = false) ->
  first_failure rules email password username = Some message.
Proof.
  revert i. induction rules as [|[v m] rest IH]; intros i Hi Hv Hbefore; [done|].
  destruct i as [|i]; simpl in *.
  - injection Hi as -> ->. by rewrite Hv.
  - rewrite (Hbefore 0 v m); [|lia|done].
    apply (IH i); [done..|].
    intros j v' m' Hj Hlook. apply (Hbefore (S j) v' m'); [lia|done].
Qed.

Lemma first_failure_none rules email password username :
  first_failure rules email password username = None <->
  forall violated message,
    (violated, message) ∈ rules -> violated email password username = false.
Proof.
  induction rules as [|[v m] rest IH]; simpl.
  - split; [intros _ ? ? H; by apply elem_of_nil in H | done].
  - destruct (v email password username) eqn:E.
    + split; [done|]. intros H. specialize (H v m (list_elem_of_here _ _)). congruence.
    + rewrite IH. split.
      * intros H v' m' [Heq|Hin]%elem_of_cons; [congruence | eauto].
      * intros H v' m' Hin. apply (H v' m'). by right.
Qed.

Lemma loading_removed (l : list JsString) :
  lit "loading" ∉ filter (fun c => c <> lit "loading") l.
Proof. rewrite list_elem_of_filter. tauto. Qed.

Lemma show_added (l : list JsString) :
  lit "show" ∈ (if bool_decide (lit "show" ∈ l) then l else l ++ [lit "show"]).
Proof.
  case_bool_decide; [done|]. apply elem_of_app. right. by left.
Qed.

End PageFacts.

Section SignupClaims.
Import Validation SignupPage.

Variable authService_signup : JsString -> JsString -> Result AuthService.AuthResponse.
Variable profileService_createUserProfile :
  JsString -> JsString -> Result ProfileService.ProfileResponse.

Local Abbreviation handler :=
  (handleSignup authService_signup profileService_createUserProfile).

(** The page after a rejected submission: the error area was cleared, then
    given [message] and shown. *)
Definition shown (message : JsString) (p : Page) : Page :=
  on_errorContainer (classList_add (lit "show"))
    (on_errorContainer (set_textContent message)
       (on_errorContainer (classList_remove (lit "show"))
          (on_errorContainer (set_textContent []) p))).

Ltac run_handler :=
  unfold call, handleSignup, bind, gets, when, clearError, showError, showLoading,
    restoreButton, try_finally, try_catch, modify, return_, ret, await, throw;
  simpl.

Lemma handleSignup_rejects p message :
  first_failure signup_rules (trim (value (email_input p))) (value (password_input p))
    (trim (value (username_input p))) = Some message ->
  call handler p = (Returns tt, shown message p).
Proof.
  unfold first_failure, signup_rules.
  rewrite <- empty_check, <- !length_check.
  run_handler.
  destruct (negb (truthyStr (trim (value (email_input p))))
            || negb (truthyStr (value (password_input p)))
            || negb (truthyStr (trim (value (username_input p))))); simpl.
  { by intros [= <-]. }
  destruct (negb (includes (trim (value (email_input p))) (lit "@"))); simpl.
  { by intros [= <-]. }
  destruct (bool_decide (length (value (password_input p)) < 6)); simpl.
  { by intros [= <-]. }
  destruct (bool_decide (length (trim (value (username_input p))) < 3)); simpl.
  { by intros [= <-]. }
  done.
Qed.

(** What the [catch] block of a handler shows for the value it caught:
    reading the message of [null] or [undefined] throws before anything is
    shown. *)
Definition shown_after_catch (e : JsError) : option JsString :=
  match e with
  | ThrownNullish => None
  | _ => Some (lit "An unexpected error occurred. Please try again.")
  end.

(** What a submission that passed the local rules ends with: the message
    shown (if any), whether the page navigated, and the calls made. *)
Definition flow (email password username : JsString)
  : option JsString * bool * list Call :=
  match authService_signup email password with
  | Throws e => (shown_after_catch e, false, [AuthSignup email password])
  | Returns r =>
      if negb (AuthService.success r) then
        (Some (str_or (AuthService.error r) (lit "Signup failed")), false,
         [AuthSignup email password])
      else
        match AuthService.user r with
        | None =>
            (Some (lit "Failed to create user account"), false,
             [AuthSignup email password])
        | Some u =>
            if negb (truthyStr (id u)) then
              (Some (lit "Failed to create user account"), false,
               [AuthSignup email password])
            else
              match profileService_createUserProfile (id u) username with
              | Throws e =>
                  (shown_after_catch e, false,
                   [AuthSignup email password; ProfileCreate (id u) username])
              | Returns pr =>
                  if negb (ProfileService.success pr) then
                    (Some (str_or (ProfileService.error pr)
                             (lit "Failed to create user profile")), false,
                     [AuthSignup email password; ProfileCreate (id u) username])
                  else
                    (None, true,
                     [AuthSignup email password; ProfileCreate (id u) username])
              end
        end
  end.

Lemma handleSignup_accepts p :
  let email := trim (value (email_input p)) in
  let password := value (password_input p) in
  let username := trim (value (username_input p)) in
  first_failure signup_rules email password username = None ->
  let p' := (call handler p).2 in
  ((forall e, authService_signup email password <> Throws e) ->
   (forall userId e, profileService_createUserProfile userId username <> Throws e) ->
   (call handler p).1 = Returns tt) /\
  calls p' = calls p ++ (flow email password username).2 /\
  navigations p'
  = navigations p ++ (if (flow email password username).1.2 then [lit "hub.html"] else []) /\
  textContent (errorContainer p') = default [] (flow email password username).1.1 /\
  ((flow email password username).1.1 <> None ->
   lit "show" ∈ classList (errorContainer p')) /\
  restored (textContent (button p)) p'.
Proof.
  intros email password username. subst email password username.
  unfold first_failure, signup_rules, flow, restored.
  rewrite <- empty_check, <- !length_check.
  run_handler.
  destruct (negb (truthyStr (trim (value (email_input p))))
            || negb (truthyStr (value (password_input p)))
            || negb (truthyStr (trim (value (username_input p))))); simpl; [done|].
  destruct (negb (includes (trim (value (email_input p))) (lit "@"))); simpl; [done|].
  destruct (bool_decide (length (value (password_input p)) < 6)); simpl; [done|].
  destruct (bool_decide (length (trim (value (username_input p))) < 3)); simpl; [done|].
  intros _.
  destruct (authService_signup _ _) as [r|e] eqn:Es; simpl;
    [destruct (AuthService.success r); simpl;
     [destruct (AuthService.user r) as [u|]; simpl;
      [destruct (truthyStr (id u)); simpl;
       [destruct (profileService_createUserProfile _ _) as [pr|e] eqn:Ep; simpl;
        [destruct (ProfileService.success pr); simpl|destruct e; simpl]|]|]|]
    |destruct e; simpl];
    repeat split; try done; try (by rewrite app_nil_r); try apply loading_removed;
    try (by rewrite <- app_assoc); try (intros _; apply show_added);
    try (intros Hs Hp; exfalso; first [by eapply Hs | by eapply Hp]).
Qed.

Lemma flow_starts_with_signup email password username :
  exists rest, (flow email password username).2 = AuthSignup email password :: rest.
Proof.
  unfold flow.
  destruct (authService_signup _ _) as [r|e];
    [destruct (negb (AuthService.success r));
     [|destruct (AuthService.user r) as [u|];
       [destruct (negb (truthyStr (id u)));
        [|destruct (profileService_createUserProfile _ _) as [pr|e];
          [destruct (negb (ProfileService.success pr))|]]|]]|];
    simpl; eauto.
Qed.

Lemma flow_profile email password username userId name :
  ProfileCreate userId name ∈ (flow email password username).2 ->
  (flow email password username).2
  = [AuthSignup email password; ProfileCreate userId name] /\
  name = username /\ userId <> [] /\
  (exists r u, authService_signup email password = Returns r /\
               AuthService.success r = true /\ AuthService.user r = Some u /\
               id u = userId) /\
  (forall msg,
      profileService_createUserProfile userId name
      = Returns {| ProfileService.success := false; ProfileService.error := Some msg |} ->
      (flow email password username).1 = (Some (str_or (Some msg) (lit "Failed to create user profile")), false)).
Proof.
  unfold flow.
  destruct (authService_signup _ _) as [r|e] eqn:Er;
    [destruct (AuthService.success r) eqn:Es; simpl;
     [destruct (AuthService.user r) as [u|] eqn:Eu;
       [destruct (truthyStr (id u)) eqn:Et; simpl;
        [destruct (profileService_createUserProfile _ _) as [pr|e] eqn:Ep;
          [destruct (ProfileService.success pr) eqn:Eps; simpl|]|]|]|]|];
    simpl; intros Hin;
    repeat (apply elem_of_cons in Hin as [Hin|Hin]; [simplify_eq|]);
    try (by apply elem_of_nil in Hin);
    (split; [done|]); (split; [done|]);
    (split; [intros Hid; by rewrite Hid in Et|]);
    (split; [by exists r, u|]);
    intros msg Hmsg; rewrite Hmsg in Ep; simplify_eq/=; done.
Qed.

End SignupClaims.

Section LoginFacts.
Import Validation LoginPage.

Variable authService_login : JsString -> JsString -> Result AuthService.AuthResponse.

Local Abbreviation handler := (handleLogin authService_login).

Ltac run_handler :=
  unfold call, handleLogin, bind, gets, when, clearError, showError, showLoading,
    restoreButton, try_finally, try_catch, modify, return_, ret, await, throw;
  simpl.

Lemma handleLogin_rejects p :
  let email := trim (value (email_input p)) in
  let password := value (password_input p) in
  email = [] \/ password = [] \/ includes email (lit "@") = false ->
  button (call handler p).2 = button p /\ calls (call handler p).2 = calls p.
Proof.
  intros email password H. subst email password. run_handler.
  destruct (truthyStr (trim (value (email_input p)))) eqn:Et; simpl; [|done].
  destruct (truthyStr (value (password_input p))) eqn:Ep; simpl; [|done].
  destruct (includes (trim (value (email_input p))) (lit "@")) eqn:Ei; simpl; [|done].
  exfalso. destruct H as [H|[H|H]];
    [rewrite H in Et; done | rewrite H in Ep; done | done].
Qed.

Lemma handleLogin_accepts p :
  let email := trim (value (email_input p)) in
  let password := value (password_input p) in
  email <> [] -> password <> [] -> includes email (lit "@") = true ->
  let p' := (call handler p).2 in
  calls p' = calls p ++ [AuthLogin email password] /\
  restored (textContent (button p)) p' /\
  (forall r, authService_login email password = Returns r ->
             AuthService.success r = true ->
             navigations p' = navigations p ++ [lit "hub.html"]) /\
  (forall r, authService_login email password = Returns r ->
             AuthService.success r = false ->
             navigations p' = navigations p /\
             textContent (errorContainer p')
             = str_or (AuthService.error r) (lit "Login failed")) /\
  (forall e, authService_login email password = Throws e ->
             navigations p' = navigations p).
Proof.
  intros email password He Hp Hat.
  assert (Het : truthyStr email = true) by (by destruct email).
  assert (Hpt : truthyStr password = true) by (by destruct password).
  subst email password. unfold restored. run_handler.
  rewrite Het, Hpt, Hat. simpl.
  destruct (authService_login _ _) as [r|e]; simpl;
    [destruct (AuthService.success r) eqn:Es; simpl|destruct e; simpl];
    repeat split; try done; try apply loading_removed;
    intros; simplify_eq; try done; congruence.
Qed.
End LoginFacts.

Section PageClaims.
Import Validation.

(** C5, as stated, fails: after a login that succeeded the page has
    navigated and the button is enabled again, without the loading class
    and with its label. *)
Lemma restore_runs_after_login_success :
  let p := Samples.form (lit "alice@example.com") (lit "secret1") [] (lit "Log in") in
  let p' := (call (LoginPage.handleLogin Samples.login_ok) p).2 in
  navigations p' = [lit "hub.html"] /\
  restored (lit "Log in") p' /\
  ~ restore_skipped p'.
Proof.
  cbv zeta. split; [reflexivity|]. split.
  - split; [reflexivity|]. split; [|reflexivity].
    vm_compute. intros H. repeat (apply elem_of_cons in H as [H|H]; [discriminate|]).
    by apply elem_of_nil in H.
  - intros [H _]. vm_compute in H. discriminate.
Qed.

(** C5, amended. Once a submission has passed the local rules, the
    [finally] block restores the button on every path: when the gateway
    reports a failure, when it throws, and also when it succeeds and the
    page navigates. A submission that a local rule rejects leaves the
    button as it was. *)
Theorem button_restored_on_every_path
    (authService_login authService_signup :
       JsString -> JsString -> Result AuthService.AuthResponse)
    (profileService_createUserProfile :
       JsString -> JsString -> Result ProfileService.ProfileResponse)
    (p : Page) :
  let email := trim (value (email_input p)) in
  let password := value (password_input p) in
  let username := trim (value (username_input p)) in
  let after_login := (call (LoginPage.handleLogin authService_login) p).2 in
  let after_signup :=
    (call (SignupPage.handleSignup authService_signup
             profileService_createUserProfile) p).2 in
  (email <> [] -> password <> [] -> includes email (lit "@") = true ->
   restored (textContent (button p)) after_login /\
   (forall r, authService_login email password = Returns r ->
              AuthService.success r = true ->
              navigations after_login = navigations p ++ [lit "hub.html"])) /\
  (email = [] \/ password = [] \/ includes email (lit "@") = false ->
   button after_login = button p) /\
  (first_failure signup_rules email password username = None ->
   restored (textContent (button p)) after_signup /\
   (forall r u pr,
       authService_signup email password = Returns r ->
       AuthService.success r = true -> AuthService.user r = Some u -> id u <> [] ->
       profileService_createUserProfile (id u) username = Returns pr ->
       ProfileService.success pr = true ->
       navigations after_signup = navigations p ++ [lit "hub.html"])) /\
  (first_failure signup_rules email password username <> None ->
   button after_signup = button p).
Proof.
  intros email password username after_login after_signup.
  split; [|split; [|split]].
  - intros He Hp Hat.
    destruct (handleLogin_accepts authService_login p He Hp Hat)
      as (_ & Hres & Hnav & _).
    split; [exact Hres | exact Hnav].
  - intros H. by destruct (handleLogin_rejects authService_login p H).
  - intros Hok.
    destruct (handleSignup_accepts authService_signup
                profileService_createUserProfile p Hok)
      as (_ & _ & Hnav & _ & _ & Hres).
    split; [exact Hres|].
    intros r u pr Hr Hs Hu Hid Hpr Hps.
    assert (Ht : truthyStr (id u) = true) by (by destruct (id u)).
    subst after_signup email password username. rewrite Hnav.
    unfold flow. rewrite Hr, Hs. simpl. rewrite Hu, Ht. simpl. by rewrite Hpr, Hps.
  - intros Hbad.
    destruct (first_failure signup_rules email password username) as [m|] eqn:E; [|done].
    unfold after_signup.
    by rewrite (handleSignup_rejects authService_signup
                  profileService_createUserProfile p m E).
Qed.

Lemma button_restored_on_every_path_witness :
  restored (lit "Sign up")
    (call (SignupPage.handleSignup Samples.signup_ok Samples.profile_ok)
       (Samples.form (lit "alice@example.com") (lit "secret1") (lit "alice")
          (lit "Sign up"))).2 /\
  restored (lit "Log in")
    (call (LoginPage.handleLogin Samples.login_ok)
       (Samples.form (lit "alice@example.com") (lit "secret1") [] (lit "Log in"))).2.
Proof.
  split.
  - destruct (button_restored_on_every_path Samples.login_ok Samples.signup_ok
                Samples.profile_ok
                (Samples.form (lit "alice@example.com") (lit "secret1") (lit "alice")
                   (lit "Sign up")))
      as (_ & _ & H & _).
    destruct H as [H _]; [reflexivity | exact H].
  - destruct (button_restored_on_every_path Samples.login_ok Samples.signup_ok
                Samples.profile_ok
                (Samples.form (lit "alice@example.com") (lit "secret1") []
                   (lit "Log in")))
      as (H & _).
    destruct H as [H _]; [discriminate | discriminate | reflexivity | exact H].
Defined.

(** C7. In the signup handler the rules are checked in their order (no
    field empty, the email holds an "@", the password has at least 6 code
    units, the username at least 3) on the trimmed email, the password and
    the trimmed username: the message of the first rule violated is shown,
    nothing else changes, and no gateway call is made; when no rule is
    violated the submission goes on to [authService.signup]. *)
Theorem signup_validation_first_failure
    (authService_signup : JsString -> JsString -> Result AuthService.AuthResponse)
    (profileService_createUserProfile :
       JsString -> JsString -> Result ProfileService.ProfileResponse)
    (p : Page) :
  let email := trim (value (email_input p)) in
  let password := value (password_input p) in
  let username := trim (value (username_input p)) in
  let run := call (SignupPage.handleSignup authService_signup
                     profileService_createUserProfile) p in
  validated email password username p run.2 /\
  (forall i violated message,
      signup_rules !! i = Some (violated, message) ->
      violated email password username = true ->
      (forall j violated' message',
          j < i -> signup_rules !! j = Some (violated', message') ->
          violated' email password username = false) ->
      run.1 = Returns tt /\
      textContent (errorContainer run.2) = message /\
      (lit "show" ∈ classList (errorContainer run.2)) /\
      calls run.2 = calls p /\
      navigations run.2 = navigations p /\
      button run.2 = button p) /\
  ((forall violated message,
       (violated, message) ∈ signup_rules ->
       violated email password username = false) ->
   exists rest, calls run.2 = calls p ++ AuthSignup email password :: rest).
Proof.
  intros email password username run. split; [|split].
  - intros message Hf. unfold run.
    by rewrite (handleSignup_rejects _ _ p message Hf).
  - intros i violated message Hi Hv Hbefore.
    pose proof (first_failure_first signup_rules email password username
                  i violated message Hi Hv Hbefore) as Hf.
    unfold run. rewrite (handleSignup_rejects _ _ p message Hf). simpl.
    repeat split. apply show_added.
  - intros Hnone. apply first_failure_none in Hnone.
    destruct (handleSignup_accepts authService_signup
                profileService_createUserProfile p Hnone) as (_ & Hcalls & _).
    destruct (flow_starts_with_signup authService_signup
                profileService_createUserProfile email password username)
      as [rest Hrest].
    exists rest. unfold run. subst email password username.
    by rewrite Hcalls, Hrest.
Qed.

Lemma signup_validation_first_failure_witness :
  let run := call (SignupPage.handleSignup Samples.signup_ok Samples.profile_ok)
               (Samples.form (lit " not-an-email ") (lit "abc") (lit "al")
                  (lit "Sign up")) in
  textContent (errorContainer run.2) = lit "Please enter a valid email address" /\
  calls run.2 = [].
Proof.
  destruct (signup_validation_first_failure Samples.signup_ok Samples.profile_ok
              (Samples.form (lit " not-an-email ") (lit "abc") (lit "al")
                 (lit "Sign up")))
    as (_ & H & _).
  destruct (H 1 _ _ eq_refl eq_refl) as (_ & Htext & _ & Hcalls & _).
  - intros j violated' message' Hj Hlook.
    destruct j as [|j]; [|lia]. injection Hlook as <- <-. reflexivity.
  - cbv zeta. split; [exact Htext | exact Hcalls].
Defined.

(** C6. In the signup handler [profileService.createUserProfile] is called
    only after [authService.signup] returned a success with a user whose
    id is not empty, for that id and the username of the form; and when
    that call returns the failure "Failed to create user profile", this
    message is shown and the page does not navigate. *)
Theorem profile_creation_follows_signup
    (authService_signup : JsString -> JsString -> Result AuthService.AuthResponse)
    (profileService_createUserProfile :
       JsString -> JsString -> Result ProfileService.ProfileResponse)
    (p : Page) :
  let email := trim (value (email_input p)) in
  let password := value (password_input p) in
  let username := trim (value (username_input p)) in
  let p' := (call (SignupPage.handleSignup authService_signup
                     profileService_createUserProfile) p).2 in
  exists made,
    calls p' = calls p ++ made /\
    (forall userId name,
        ProfileCreate userId name ∈ made ->
        made = [AuthSignup email password; ProfileCreate userId name] /\
        name = username /\ userId <> [] /\
        exists r u, authService_signup email password = Returns r /\
                    AuthService.success r = true /\
                    AuthService.user r = Some u /\ id u = userId) /\
    (forall userId name,
        ProfileCreate userId name ∈ made ->
        profileService_createUserProfile userId name
        = Returns {| ProfileService.success := false;
                     ProfileService.error := Some (lit "Failed to create user profile") |} ->
        textContent (errorContainer p') = lit "Failed to create user profile" /\
        (lit "show" ∈ classList (errorContainer p')) /\
        navigations p' = navigations p).
Proof.
  intros email password username p'.
  destruct (first_failure signup_rules email password username) as [m|] eqn:Hf.
  - exists []. unfold p'.
    rewrite (handleSignup_rejects _ _ p m Hf). simpl. rewrite app_nil_r.
    split; [done|]. split; intros ? ? Hin; by apply elem_of_nil in Hin.
  - destruct (handleSignup_accepts authService_signup
                profileService_createUserProfile p Hf)
      as (_ & Hcalls & Hnav & Htext & Hshow & _).
    fold email password username p' in Hcalls, Hnav, Htext, Hshow.
    exists (flow authService_signup profileService_createUserProfile
              email password username).2.
    split; [exact Hcalls|]. split.
    + intros userId name Hin.
      destruct (flow_profile _ _ _ _ _ _ _ Hin) as (Hmade & Hname & Hid & Hsig & _).
      done.
    + intros userId name Hin Hfail.
      destruct (flow_profile _ _ _ _ _ _ _ Hin) as (_ & _ & _ & _ & Hmsg).
      specialize (Hmsg _ Hfail).
      rewrite Hmsg in Hnav, Htext, Hshow. simpl in *.
      split; [exact Htext|]. split; [by apply Hshow|]. by rewrite app_nil_r in Hnav.
Qed.

Lemma profile_creation_follows_signup_witness :
  let p' := (call (SignupPage.handleSignup Samples.signup_ok Samples.profile_fails)
               (Samples.form (lit "alice@example.com") (lit "secret1") (lit "alice")
                  (lit "Sign up"))).2 in
  calls p' = [AuthSignup (lit "alice@example.com") (lit "secret1");
              ProfileCreate (lit "u1") (lit "alice")] /\
  textContent (errorContainer p') = lit "Failed to create user profile" /\
  navigations p' = [].
Proof.
  destruct (profile_creation_follows_signup Samples.signup_ok Samples.profile_fails
              (Samples.form (lit "alice@example.com") (lit "secret1") (lit "alice")
                 (lit "Sign up")))
    as (made & Hcalls & Hmade & Hfail).
  assert (Hin : ProfileCreate (lit "u1") (lit "alice") ∈ made).
  { vm_compute in Hcalls. rewrite <- Hcalls. right. left. }
  destruct (Hmade _ _ Hin) as (Heq & _).
  destruct (Hfail _ _ Hin eq_refl) as (Htext & _ & Hnav).
  cbv zeta. split; [|split; [exact Htext | exact Hnav]].
  rewrite Hcalls, Heq. reflexivity.
Defined.

End PageClaims.

(** ** More on the gateways *)

Section GatewayFacts.
Import AuthService Contract.

Ltac run_stmt :=
  unfold call_returning, credentials_call, try_catch, this_auth, bind, gets,
    deref, await, return_, throw, ret; simpl.

Ltac same_call :=
  repeat match goal with
         | E : ?x = _, H : ?x = _ |- _ => rewrite E in H
         end.

Lemma credentials_call_success op unexpected email password s :
  exists r,
    call_returning (credentials_call op unexpected email password) s = (Returns r, s) /\
    (success r = true <->
     exists api reply d,
       api_of s = Some api /\ op api email password = Returns (Some reply) /\
       Provider.error reply = None /\ data reply = Some d) /\
    (forall api,
        api_of s = Some api ->
        (forall reply d,
            op api email password = Returns (Some reply) ->
            Provider.error reply = None -> data reply = Some d ->
            r = {| success := true; user := data_user d; session := data_session d;
                   error := None |}) /\
        (op api email password = Returns None -> r = failure unexpected) /\
        (forall reply,
            op api email password = Returns (Some reply) ->
            Provider.error reply = None -> data reply = None ->
            r = failure unexpected)) /\
    (api_of s = None -> r = failure unexpected).
Proof.
  unfold api_of. run_stmt.
  destruct (supabaseClient s) as [c|]; simpl;
    [destruct (auth c) as [api|]; simpl;
     [destruct (op api email password) as [[reply|]|e] eqn:Eop; simpl;
      [destruct (Provider.error reply) as [err|] eqn:Eerr; simpl;
       [|destruct (data reply) as [d|] eqn:Ed; simpl]|..]|]|];
    (eexists; split; [reflexivity|];
     split; [split; [intros H | intros (api' & reply' & d' & Ha & Hop & He & Hd)]
            |split; [intros api' Ha; split;
                     [intros reply' d' Hop He Hd
                     |split; [intros Hop | intros reply' Hop He Hd]]
                    |intros Ha]]);
    simpl in *; simplify_eq; same_call; simplify_eq; try congruence; try done.
  by exists api, reply, d.
Qed.

(** X2. [login] and [signup] report a success exactly when the SDK call
    returned a reply without an error and with a data object, and then hand
    on its user and session as they are; a nullish reply, a reply without
    data and a service without a usable client all end in the operation's
    unexpected-error failure. The service itself is left as it was. *)
Theorem login_signup_success_iff (s : State) (email password : JsString) :
  (exists r,
      call_returning (login email password) s = (Returns r, s) /\
      (success r = true <->
       exists api reply d,
         api_of s = Some api /\
         signInWithPassword api email password = Returns (Some reply) /\
         Provider.error reply = None /\ data reply = Some d) /\
      (forall api,
          api_of s = Some api ->
          (forall reply d,
              signInWithPassword api email password = Returns (Some reply) ->
              Provider.error reply = None -> data reply = Some d ->
              r = {| success := true; user := data_user d; session := data_session d;
                     error := None |}) /\
          (signInWithPassword api email password = Returns None ->
           r = failure (lit "An unexpected error occurred during login")) /\
          (forall reply,
              signInWithPassword api email password = Returns (Some reply) ->
              Provider.error reply = None -> data reply = None ->
              r = failure (lit "An unexpected error occurred during login"))) /\
      (api_of s = None ->
       r = failure (lit "An unexpected error occurred during login"))) /\
  (exists r,
      call_returning (signup email password) s = (Returns r, s) /\
      (success r = true <->
       exists api reply d,
         api_of s = Some api /\
         signUp api email password = Returns (Some reply) /\
         Provider.error reply = None /\ data reply = Some d) /\
      (forall api,
          api_of s = Some api ->
          (forall reply d,
              signUp api email password = Returns (Some reply) ->
              Provider.error reply = None -> data reply = Some d ->
              r = {| success := true; user := data_user d; session := data_session d;
                     error := None |}) /\
          (signUp api email password = Returns None ->
           r = failure (lit "An unexpected error occurred during signup")) /\
          (forall reply,
              signUp api email password = Returns (Some reply) ->
              Provider.error reply = None -> data reply = None ->
              r = failure (lit "An unexpected error occurred during signup"))) /\
      (api_of s = None ->
       r = failure (lit "An unexpected error occurred during signup"))).
Proof.
  split.
  - apply (credentials_call_success signInWithPassword).
  - apply (credentials_call_success signUp).
Qed.

Lemma login_signup_success_iff_witness :
  call_returning (login (lit "alice@example.com") (lit "secret1"))
    (new (Some (Samples.client_of Samples.accepting_api)))
  = (Returns {| success := true; user := Some Samples.alice;
                session := Some Samples.alice_session; error := None |},
     new (Some (Samples.client_of Samples.accepting_api))) /\
  call_returning (signup (lit "alice@example.com") (lit "secret1")) (new None)
  = (Returns (failure (lit "An unexpected error occurred during signup")), new None).
Proof.
  split.
  - destruct (login_signup_success_iff
                (new (Some (Samples.client_of Samples.accepting_api)))
                (lit "alice@example.com") (lit "secret1"))
      as ((r & Hcall & _ & Hapi & _) & _).
    rewrite Hcall. f_equal. f_equal.
    destruct (Hapi Samples.accepting_api eq_refl) as (Hok & _).
    exact (Hok _ _ eq_refl eq_refl eq_refl).
  - destruct (login_signup_success_iff (new None)
                (lit "alice@example.com") (lit "secret1"))
      as (_ & (r & Hcall & _ & _ & Hnone)).
    rewrite Hcall. f_equal. f_equal. by apply Hnone.
Defined.

(** X3. [logout] succeeds exactly when the sign-out call returned a reply
    without an error, and then carries neither user nor session; every error
    the provider reports, whatever its message, becomes "Failed to logout".
    The service is left as it was. *)
Theorem logout_success_iff (s : State) :
  exists r,
    call_returning logout s = (Returns r, s) /\
    (success r = true <->
     exists api reply,
       api_of s = Some api /\ signOut api = Returns (Some reply) /\
       Provider.error reply = None) /\
    (success r = true -> user r = None /\ session r = None /\ error r = None) /\
    (forall api reply err,
        api_of s = Some api -> signOut api = Returns (Some reply) ->
        Provider.error reply = Some err ->
        r = failure (lit "Failed to logout")) /\
    (forall api,
        api_of s = Some api -> signOut api = Returns None ->
        r = failure (lit "An unexpected error occurred during logout")) /\
    (api_of s = None -> r = failure (lit "An unexpected error occurred during logout")).
Proof.
  unfold api_of, logout. run_stmt.
  destruct (supabaseClient s) as [c|]; simpl;
    [destruct (auth c) as [api|]; simpl;
     [destruct (signOut api) as [[reply|]|e] eqn:Eop; simpl;
      [destruct (Provider.error reply) as [err|] eqn:Eerr; simpl|..]|]|];
    (eexists; split; [reflexivity|];
     split; [split; [intros H | intros (api' & reply' & Ha & Hop & He)]
            |split; [intros H
                    |split; [intros api' reply' err' Ha Hop He
                            |split; [intros api' Ha Hop | intros Ha]]]]);
    simpl in *; simplify_eq; same_call; simplify_eq; try congruence; try done.
  by exists api, reply.
Qed.

Lemma logout_success_iff_witness :
  call_returning logout (new (Some (Samples.client_of Samples.accepting_api)))
  = (Returns {| success := true; user := None; session := None; error := None |},
     new (Some (Samples.client_of Samples.accepting_api))).
Proof.
  destruct (logout_success_iff (new (Some (Samples.client_of Samples.accepting_api))))
    as (r & Hcall & Hiff & Hfields & _).
  rewrite Hcall. f_equal. f_equal.
  assert (Hs : success r = true).
  { apply Hiff. by exists Samples.accepting_api, {| data := None; Provider.error := None |}. }
  destruct (Hfields Hs) as (Hu & Hse & He).
  destruct r as [su u se e]. simpl in *. by subst.
Defined.

(** X4. Whatever the raw string, [formatErrorMessage] answers with one of
    six fixed messages: one of the five of the table or the fallback. *)
Theorem formatErrorMessage_range (rawError : JsString) :
  formatErrorMessage rawError
  ∈ [ lit "Invalid email or password";
      lit "Please confirm your email before logging in";
      lit "This email is already registered";
      lit "Password must be at least 6 characters";
      lit "No account found with this email";
      lit "Authentication failed. Please try again" ].
Proof.
  unfold formatErrorMessage.
  destruct (for_entries errorMap rawError) as [m|] eqn:E.
  - apply for_entries_some in E.
    change (m ∈ (snd <$> errorMap) ++ [lit "Authentication failed. Please try again"]).
    apply elem_of_app. by left.
  - change (lit "Authentication failed. Please try again"
            ∈ (snd <$> errorMap) ++ [lit "Authentication failed. Please try again"]).
    apply elem_of_app. right. by left.
Qed.

End GatewayFacts.

Section ProfileFacts.
Import ProfileService.

(** X1. [createUserProfile] returns, whatever the provider does: a reply
    without an error gives a success, a reply with an error (whatever it
    says) gives "Failed to create user profile", and an insert that throws,
    a nullish reply or a missing client give "An unexpected error occurred
    while creating profile". The row goes to the table "profiles" with the
    given id and username. *)
Theorem createUserProfile_contract (s : State) (userId username : JsString) :
  exists r,
    call_returning (createUserProfile userId username) s = (Returns r, s) /\
    (success r = true <->
     exists c reply,
       supabaseClient s = Some c /\
       from_insert c (lit "profiles") userId username = Returns (Some reply) /\
       Provider.error reply = None) /\
    (success r = true -> error r = None) /\
    (forall c reply err,
        supabaseClient s = Some c ->
        from_insert c (lit "profiles") userId username = Returns (Some reply) ->
        Provider.error reply = Some err ->
        r = {| success := false; error := Some (lit "Failed to create user profile") |}) /\
    (forall c,
        supabaseClient s = Some c ->
        (from_insert c (lit "profiles") userId username = Returns None \/
         exists e, from_insert c (lit "profiles") userId username = Throws e) ->
        r = {| success := false;
               error := Some (lit "An unexpected error occurred while creating profile") |}) /\
    (supabaseClient s = None ->
     r = {| success := false;
            error := Some (lit "An unexpected error occurred while creating profile") |}).
Proof.
  unfold createUserProfile, call_returning, try_catch, bind, gets, deref, await,
    return_, throw, ret; simpl.
  destruct (supabaseClient s) as [c|]; simpl;
    [destruct (from_insert c (lit "profiles") userId username) as [[reply|]|e] eqn:Eop;
     simpl; [destruct (Provider.error reply) as [err|] eqn:Eerr; simpl|..]|];
    (eexists; split; [reflexivity|];
     split; [split; [intros H | intros (c' & reply' & Ha & Hop & He)]
            |split; [intros H
                    |split; [intros c' reply' err' Ha Hop He
                            |split; [intros c' Ha [Hop|[e' Hop]] | intros Ha]]]]);
    simpl in *; simplify_eq;
    repeat match goal with
           | E : ?x = _, H : ?x = _ |- _ => rewrite E in H
           end;
    simplify_eq; try congruence; try done.
  by exists c, reply.
Qed.

Lemma createUserProfile_contract_witness :
  call_returning (createUserProfile (lit "u1") (lit "alice"))
    {| supabaseClient := Some (Samples.client_of Samples.accepting_api) |}
  = (Returns {| success := true; error := None |},
     {| supabaseClient := Some (Samples.client_of Samples.accepting_api) |}).
Proof.
  destruct (createUserProfile_contract
              {| supabaseClient := Some (Samples.client_of Samples.accepting_api) |}
              (lit "u1") (lit "alice"))
    as (r & Hcall & Hiff & Hfields & _).
  rewrite Hcall. f_equal. f_equal.
  assert (Hs : success r = true).
  { apply Hiff.
    by exists (Samples.client_of Samples.accepting_api),
              {| data := None; Provider.error := None |}. }
  specialize (Hfields Hs). destruct r as [su e]. simpl in *. by subst.
Defined.

End ProfileFacts.

(** ** More on the listener registry *)

Section RegistryFacts.
Import AuthService Registry Runs.

Variable behaviour :
  Ref -> option User -> list (Ref * option User) -> list Action * option JsError.

(** The parts of the state a fan-out does not touch. *)
Definition same_service (s s' : State) : Prop :=
  upstream s' = upstream s /\ supabaseClient s' = supabaseClient s.

Lemma run_actions_frame {R} acts : forall s s' c,
  run_actions (R:=R) acts s = (c, s') -> same_service s s'.
Proof.
  induction acts as [|a acts IH]; intros s s' c H.
  - injection H as _ <-. by split.
  - destruct a as [callback|handle].
    + destruct (IH (push callback s) s' c H) as [? ?]. by split.
    + destruct (IH (reassign_filtered (captured handle) s) s' c H) as [? ?]. by split.
Qed.

Lemma guarded_console O l0 user callback s :
  stable O l0 s ->
  exists s', guarded behaviour user callback s = (Normal tt, s') /\
             stable O l0 s' /\
             invocations s' = invocations s ++ [(callback, user)] /\
             console s'
             = console s
               ++ match (behaviour callback user (invocations s)).2 with
                  | Some e => [ConsoleError (lit "Error in auth state change callback:")
                                 (Some e)]
                  | None => []
                  end /\
             same_service s s'.
Proof.
  intros Hst.
  set (s0 := with_invocation s (callback, user)).
  assert (Hst0 : stable O l0 s0) by exact Hst.
  destruct (run_actions_spec (R:=unit) O l0
              (behaviour callback user (invocations s)).1 s0 Hst0)
    as (s' & Hrun & Hst' & Hreg & Hinv & Hcon).
  pose proof (run_actions_frame _ _ _ _ Hrun) as [Hup Hcl].
  unfold guarded, try_catch, invoke, bind, gets, modify. simpl.
  fold s0. rewrite Hrun.
  destruct (behaviour callback user (invocations s)).2 as [e|]; simpl.
  - eexists. split; [reflexivity|]. split; [exact Hst'|]. simpl.
    split; [done|]. split; [by rewrite Hcon|]. by split.
  - exists s'. split; [reflexivity|]. split; [exact Hst'|].
    split; [done|]. split; [by rewrite Hcon, app_nil_r|]. by split.
Qed.

Lemma forEach_from_console O l0 user n : forall k s,
  stable O l0 s ->
  k + n = length l0 ->
  exists s', forEach_from O k n (guarded behaviour user) s = (Normal tt, s') /\
             stable O l0 s' /\
             invocations s'
             = invocations s ++ ((fun callback => (callback, user)) <$> drop k l0) /\
             console s'
             = console s
               ++ (ConsoleError (lit "Error in auth state change callback:") ∘ Some
                     <$> fanout_errors behaviour user (drop k l0) (invocations s)) /\
             same_service s s'.
Proof.
  induction n as [|n IH]; intros k s Hst Hk.
  - exists s. rewrite drop_ge by lia. simpl. rewrite !app_nil_r.
    split; [done|]. split; [exact Hst|]. by repeat split.
  - destruct (lookup_lt_is_Some_2 l0 k ltac:(lia)) as [x Hx].
    assert (Hread : array_at s O !! k = Some x).
    { destruct Hst as (_ & _ & Hpre). by eapply prefix_lookup_Some. }
    destruct (guarded_console O l0 user x s Hst)
      as (s1 & Hg & Hst1 & Hinv1 & Hcon1 & Hsame1).
    destruct (IH (S k) s1 Hst1 ltac:(lia)) as (s' & Hrun & Hst' & Hinv & Hcon & Hsame).
    exists s'. split.
    + simpl. unfold bind at 1. unfold gets. simpl. rewrite Hread.
      unfold bind. rewrite Hg. exact Hrun.
    + split; [done|]. rewrite (drop_S _ _ _ Hx). simpl. split; [|split].
      * rewrite Hinv, Hinv1, <- app_assoc. done.
      * rewrite Hcon, Hcon1, Hinv1, fmap_app, <- app_assoc.
        by destruct (behaviour x user (invocations s)).2.
      * destruct Hsame1, Hsame. split; congruence.
Qed.

Lemma notifyListeners_console user s :
  well_formed s ->
  exists s', notifyListeners behaviour user s = (Normal tt, s') /\
             well_formed s' /\
             invocations s'
             = invocations s ++ ((fun callback => (callback, user)) <$> registered s) /\
             console s'
             = console s
               ++ (ConsoleError (lit "Error in auth state change callback:") ∘ Some
                     <$> fanout_errors behaviour user (registered s) (invocations s)) /\
             same_service s s'.
Proof.
  intros Hwf.
  assert (Hst : stable (authStateListeners s) (registered s) s).
  { split; [done|]. split; [done|]. reflexivity. }
  destruct (forEach_from_console (authStateListeners s) (registered s) user
              (length (registered s)) 0 s Hst ltac:(lia))
    as (s' & Hrun & Hst' & Hinv & Hcon & Hsame).
  exists s'. split; [exact Hrun|]. split; [apply Hst'|]. done.
Qed.

End RegistryFacts.

Section RegistryTheorems.
Import AuthService Registry Runs Contract.

Variable behaviour :
  Ref -> option User -> list (Ref * option User) -> list Action * option JsError.

Lemma authStateHandler_console event session s :
  well_formed s ->
  exists s',
    call (authStateHandler behaviour event session) s = (Returns tt, s') /\
    well_formed s' /\
    invocations s'
    = invocations s
      ++ ((fun callback => (callback, nullish (session ≫= session_user) None))
            <$> registered s) /\
    console s'
    = console s
      ++ (ConsoleError (lit "Error in auth state change callback:") ∘ Some
            <$> fanout_errors behaviour (nullish (session ≫= session_user) None)
                  (registered s) (invocations s)) /\
    same_service s s'.
Proof.
  intros Hwf.
  destruct (notifyListeners_console behaviour (nullish (session ≫= session_user) None)
              s Hwf) as (s' & Hrun & Hrest).
  exists s'. split; [|exact Hrest].
  apply call_normal. unfold authStateHandler. rewrite or_else_nullish. exact Hrun.
Qed.

Lemma emit_unsubscribed event session s :
  upstream s = 0 -> emit behaviour event session s = (Returns tt, s).
Proof. intros H. unfold emit. by rewrite H. Qed.

Lemma emit_subscribed event session s s' :
  upstream s = 1 ->
  call (authStateHandler behaviour event session) s = (Returns tt, s') ->
  emit behaviour event session s = (Returns tt, s').
Proof.
  intros Hup Hcall. unfold emit. rewrite Hup. apply call_normal. simpl.
  unfold bind. by rewrite Hcall.
Qed.

Lemma well_formed_push callback s : well_formed s -> well_formed (push callback s).
Proof. unfold well_formed, push. simpl. by rewrite length_alter. Qed.

Lemma well_formed_reassign callback s :
  well_formed s -> well_formed (reassign_filtered callback s).
Proof. unfold well_formed, reassign_filtered. simpl. rewrite length_app. simpl. lia. Qed.

Lemma filter_absent (callback : Ref) (l : list Ref) :
  callback ∉ l -> filter (fun listener => listener <> callback) l = l.
Proof.
  induction l as [|x l IH]; intros Hl; [done|].
  apply not_elem_of_cons in Hl as [Hx Hl].
  rewrite filter_cons_True by congruence. by rewrite IH.
Qed.

(** X9. In a fan-out every listener that throws is reported on the console
    with what it threw, once per throwing call and in the order of the calls;
    nothing else is written, the upstream subscription and the client are
    not touched, and the handler returns normally. *)
Theorem fanout_logs_every_failure
    (event : JsString) (session : option Session) (s : State) :
  well_formed s ->
  let user := nullish (session ≫= session_user) None in
  exists s',
    call (authStateHandler behaviour event session) s = (Returns tt, s') /\
    console s'
    = console s
      ++ (ConsoleError (lit "Error in auth state change callback:") ∘ Some
            <$> fanout_errors behaviour user (registered s) (invocations s)) /\
    ((forall callback history, (behaviour callback user history).2 = None) ->
     console s' = console s) /\
    upstream s' = upstream s /\ supabaseClient s' = supabaseClient s.
Proof.
  intros Hwf user.
  destruct (authStateHandler_console event session s Hwf)
    as (s' & Hcall & _ & _ & Hcon & Hup & Hcl).
  exists s'. split; [exact Hcall|]. split; [exact Hcon|]. split; [|done].
  intros Hquiet. rewrite Hcon.
  assert (Hnone : forall l h, fanout_errors behaviour user l h = []).
  { induction l as [|x l IH]; intros h; [done|]. simpl. by rewrite Hquiet, IH. }
  fold user. by rewrite Hnone, app_nil_r.
Qed.



(** X6. Calling a handle never throws and leaves the calls made so far
    alone; the registry keeps every other callback in its order; a second
    call of the handle changes nothing more, and so does a first call when
    the callback is not registered. The array object the field referred to
    before the call still holds what it held. *)
Theorem unsubscribe_idempotent (s : State) (handle : Unsubscribe) :
  let s1 := state_after (unsubscribe handle) s in
  let s2 := state_after (unsubscribe handle) s1 in
  result_of (unsubscribe handle) s = Returns tt /\
  invocations s1 = invocations s /\
  registered s1 = filter (fun listener => listener <> captured handle) (registered s) /\
  registered s2 = registered s1 /\
  (captured handle ∉ registered s -> registered s1 = registered s) /\
  (well_formed s ->
   well_formed s1 /\ array_at s1 (authStateListeners s) = registered s).
Proof.
  intros s1 s2.
  assert (Hs1 : s1 = reassign_filtered (captured handle) s) by reflexivity.
  assert (Hs2 : s2 = reassign_filtered (captured handle) s1) by reflexivity.
  assert (Hreg1 : registered s1
                  = filter (fun listener => listener <> captured handle) (registered s)).
  { rewrite Hs1. apply registered_reassign. }
  split; [reflexivity|]. split; [reflexivity|]. split; [exact Hreg1|].
  split; [|split].
  - rewrite Hs2, registered_reassign, Hreg1.
    apply filter_absent. rewrite list_elem_of_filter. tauto.
  - intros Habsent. rewrite Hreg1. by apply filter_absent.
  - intros Hwf. split; [rewrite Hs1; by apply well_formed_reassign|].
    rewrite Hs1. unfold array_at at 1. unfold reassign_filtered. simpl.
    by rewrite lookup_app_l.
Qed.

Lemma apply_actions_present callback acts : forall l,
  callback ∈ l ->
  (forall handle, Invoke handle ∈ acts -> captured handle <> callback) ->
  callback ∈ apply_actions acts l.
Proof.
  induction acts as [|a acts IH]; intros l Hl Hacts; [done|].
  change (callback ∈ apply_actions acts (apply_action a l)).
  apply IH.
  - destruct a as [c|h]; simpl.
    + apply elem_of_app. by left.
    + apply list_elem_of_filter. split; [|done].
      intros ->. by apply (Hacts h); [left|].
  - intros h Hh. apply Hacts. by right.
Qed.

(** X10. A callback that a listener subscribes while a fan-out is running
    (and that no later call of that fan-out removes) is registered when the
    fan-out ends; if it was not registered before, that fan-out does not call
    it, and the next event does. *)
Theorem subscribe_during_fanout (user : option User) (s : State) :
  well_formed s ->
  exists s',
    notifyListeners behaviour user s = (Normal tt, s') /\
    forall callback before after,
      fanout_actions behaviour user (registered s) (invocations s)
      = before ++ Subscribe callback :: after ->
      (forall handle, Invoke handle ∈ after -> captured handle <> callback) ->
      callback ∈ registered s' /\
      (callback ∉ registered s ->
       calls_to callback (drop (length (invocations s)) (invocations s')) = []) /\
      (forall user', exists s'',
          notifyListeners behaviour user' s' = (Normal tt, s'') /\
          (callback, user') ∈ drop (length (invocations s')) (invocations s'')).
Proof.
  intros Hwf.
  destruct (notifyListeners_spec behaviour user s Hwf)
    as (s' & Hrun & Hwf' & Hinv & Hreg & _).
  exists s'. split; [exact Hrun|].
  intros callback before after Hacts Hafter.
  assert (Hin : callback ∈ registered s').
  { rewrite Hreg, Hacts, apply_actions_app.
    change (apply_actions (Subscribe callback :: after) ?l)
      with (apply_actions after (l ++ [callback])).
    apply apply_actions_present; [|done]. apply elem_of_app. right. by left. }
  split; [exact Hin|]. split.
  - intros Hnew. rewrite Hinv, drop_app_length. by apply calls_to_absent.
  - intros user'.
    destruct (notifyListeners_spec behaviour user' s' Hwf')
      as (s'' & Hrun' & _ & Hinv' & _).
    exists s''. split; [exact Hrun'|].
    rewrite Hinv', drop_app_length.
    by apply (list_elem_of_fmap_2 (fun c => (c, user'))).
Qed.

(** What holds of a service built on [client] throughout its life. *)
Definition service_invariant (client : option Client) (s : State) : Prop :=
  well_formed s /\ supabaseClient s = client /\
  upstream s = (if truthy (client ≫= auth) then 1 else 0).

Lemma new_invariant client : service_invariant client (new client).
Proof.
  unfold service_invariant, well_formed, new, call, initializeAuthStateListener,
    bind, gets, when, console_error, modify, return_, ret. simpl.
  destruct (truthy (client ≫= auth)); simpl; (split; [lia|done]).
Qed.

Lemma auth_operations_state s :
  (forall email password, (call_returning (login email password) s).2 = s) /\
  (forall email password, (call_returning (signup email password) s).2 = s) /\
  (call_returning logout s).2 = s /\
  (call_returning getSession s).2 = s /\
  (call_returning getUser s).2 = s.
Proof.
  split; [|split; [|split; [|split]]].
  - intros email password.
    destruct (credentials_call_spec signInWithPassword
                (lit "An unexpected error occurred during login") email password s)
      as (r & Hcall & _); [vm_compute; repeat constructor|].
    unfold login. by rewrite Hcall.
  - intros email password.
    destruct (credentials_call_spec signUp
                (lit "An unexpected error occurred during signup") email password s)
      as (r & Hcall & _); [vm_compute; repeat constructor|].
    unfold signup. by rewrite Hcall.
  - destruct (logout_spec s) as (r & Hcall & _). by rewrite Hcall.
  - unfold getSession, call_returning, try_catch, this_auth, bind, gets, deref, await,
      return_, throw, ret. simpl.
    destruct (supabaseClient s) as [c|]; simpl; [|done].
    destruct (auth c) as [api|]; simpl; [|done].
    destruct (Provider.getSession api) as [[reply|]|e]; simpl; try done.
    by destruct (data reply).
  - unfold getUser, call_returning, try_catch, this_auth, bind, gets, deref, await,
      return_, throw, ret. simpl.
    destruct (supabaseClient s) as [c|]; simpl; [|done].
    destruct (auth c) as [api|]; simpl; [|done].
    destruct (Provider.getUser api) as [[reply|]|e]; simpl; try done.
    by destruct (data reply).
Qed.

Lemma step_invariant client s op :
  service_invariant client s ->
  service_invariant client (step behaviour s op) /\
  invocations s `prefix_of` invocations (step behaviour s op) /\
  (is_event op = false \/ upstream s = 0 ->
   invocations (step behaviour s op) = invocations s).
Proof.
  intros (Hwf & Hcl & Hup).
  destruct (auth_operations_state s) as (Hlogin & Hsignup & Hlogout & Hgs & Hgu).
  destruct op as [callback|handle|event session|e p|e p| | |]; simpl;
    rewrite ?Hlogin, ?Hsignup, ?Hlogout, ?Hgs, ?Hgu;
    try (split; [by repeat split|]; split; [reflexivity|]; done).
  - split; [|split; [reflexivity|done]].
    split; [by apply well_formed_push|]. by split.
  - split; [|split; [reflexivity|done]].
    split; [by apply well_formed_reassign|]. by split.
  - destruct (truthy (client ≫= auth)) eqn:Et.
    + destruct (authStateHandler_console event session s Hwf)
        as (s' & Hcall & Hwf' & Hinv & _ & Hup' & Hcl').
      rewrite (emit_subscribed event session s s' Hup Hcall). simpl.
      split; [|split].
      * split; [done|]. split; [congruence|]. rewrite Et. congruence.
      * rewrite Hinv. by apply prefix_app_r.
      * intros [H|H]; [done|]. rewrite Hup in H. done.
    + rewrite (emit_unsubscribed event session s Hup). simpl.
      split; [|split; [reflexivity|done]].
      split; [done|]. split; [done|]. by rewrite Et.
Qed.

Lemma run_invariant client ops : service_invariant client (run behaviour client ops).
Proof.
  unfold run. induction ops as [|op ops IH] using rev_ind.
  - apply new_invariant.
  - rewrite foldl_app. simpl. by apply step_invariant.
Qed.

Lemma run_silent client ops :
  (forall op, op ∈ ops -> is_event op = false) \/ client ≫= auth = None ->
  invocations (run behaviour client ops) = [].
Proof.
  intros H. unfold run. induction ops as [|op ops IH] using rev_ind.
  - unfold new, call, initializeAuthStateListener, bind, gets, when, console_error,
      modify, return_, ret. simpl. by destruct (truthy (client ≫= auth)).
  - rewrite foldl_app. simpl.
    destruct (step_invariant client (foldl (step behaviour) (new client) ops) op
                (run_invariant client ops)) as (_ & _ & Hsame).
    rewrite Hsame.
    + apply IH. destruct H as [H|H]; [left|by right].
      intros op' Hin. apply H. apply elem_of_app. by left.
    + destruct H as [H|H].
      * left. apply H. apply elem_of_app. right. by left.
      * right. destruct (run_invariant client ops) as (_ & _ & Hup).
        fold (run behaviour client ops). rewrite Hup, H. done.
Qed.

(** C3. On a service built on a client that has [auth], after any
    operations: an event [(event, session)] that the provider's stream emits
    reaches the handler the constructor registered, which computes [user] as
    [session?.user ?? null] and calls every registered listener once per
    registration, in registration order, with that one value; a listener
    that throws does not keep the later ones from being called, and nothing
    is thrown back to the stream. *)
Theorem fanout_reaches_every_listener
    (client : option Client) (api : AuthApi) (ops : list Op)
    (event : JsString) (session : option Session) :
  client ≫= auth = Some api ->
  let s := run behaviour client ops in
  let user := nullish (session ≫= session_user) None in
  exists s',
    emit behaviour event session s = (Returns tt, s') /\
    s' = run behaviour client (ops ++ [ProviderEvent event session]) /\
    call (authStateHandler behaviour event session) s = (Returns tt, s') /\
    invocations s'
    = invocations s ++ ((fun callback => (callback, user)) <$> registered s) /\
    (forall i callback,
        registered s !! i = Some callback ->
        invocations s' !! (length (invocations s) + i) = Some (callback, user)).
Proof.
  intros Hauth s user.
  destruct (run_invariant client ops) as (Hwf & _ & Hup).
  rewrite Hauth in Hup. simpl in Hup. fold s in Hwf, Hup.
  destruct (authStateHandler_spec behaviour event session s Hwf)
    as (s' & Hcall & _ & Hinv).
  pose proof (emit_subscribed event session s s' Hup Hcall) as Hemit.
  exists s'. split; [exact Hemit|]. split; [|split; [exact Hcall|split; [exact Hinv|]]].
  - unfold run. rewrite foldl_app. simpl. fold (run behaviour client ops). fold s.
    by rewrite Hemit.
  - intros i callback Hi. rewrite Hinv, lookup_app_r by lia.
    replace (length (invocations s) + i - length (invocations s)) with i by lia.
    by rewrite list_lookup_fmap, Hi.
Qed.

(** X7. After any sequence of public operations, handle calls and provider
    events on a new service: the field [authStateListeners] refers to an
    array object of the store, the client and the upstream subscription are
    those the constructor set, the calls made to listeners so far are never
    taken back, the five auth operations leave the service exactly as it
    is, and as long as the provider has emitted no event no listener has been
    called. *)
Theorem run_keeps_invariants (client : option Client) (ops : list Op) :
  let s := run behaviour client ops in
  well_formed s /\
  supabaseClient s = client /\
  upstream s = upstream (new client) /\
  (forall op, invocations s `prefix_of` invocations (step behaviour s op)) /\
  (forall email password,
      step behaviour s (Login email password) = s /\
      step behaviour s (Signup email password) = s) /\
  (step behaviour s Logout = s /\ step behaviour s GetSession = s /\
   step behaviour s GetUser = s) /\
  ((forall op, op ∈ ops -> is_event op = false) -> invocations s = []).
Proof.
  intros s.
  destruct (run_invariant client ops) as (Hwf & Hcl & Hup).
  destruct (new_invariant client) as (_ & _ & Hup0).
  destruct (auth_operations_state s) as (Hlogin & Hsignup & Hlogout & Hgs & Hgu).
  split; [exact Hwf|]. split; [exact Hcl|]. split; [by rewrite Hup0|].
  split; [|split; [|split]].
  - intros op. by apply (step_invariant client s op).
  - intros email password. simpl. by rewrite Hlogin, Hsignup.
  - simpl. by rewrite Hlogout, Hgs, Hgu.
  - intros Hnone. apply run_silent. by left.
Qed.

(** X8. The constructor starts with an empty registry. With a client that
    has [auth] it subscribes once to the provider's stream and writes
    nothing to the console; with a client that is missing or has no [auth] it
    reports "Supabase client not properly initialized", subscribes to
    nothing, and whatever is registered on that service afterwards is never
    called. *)
Theorem constructor_subscription (client : option Client) :
  registered (new client) = [] /\
  invocations (new client) = [] /\
  (forall api, client ≫= auth = Some api ->
               upstream (new client) = 1 /\ console (new client) = []) /\
  (client ≫= auth = None ->
   upstream (new client) = 0 /\
   console (new client)
   = [ConsoleError (lit "Supabase client not properly initialized") None] /\
   forall ops, invocations (run behaviour client ops) = []).
Proof.
  split; [|split; [|split]].
  - unfold new, call, initializeAuthStateListener, bind, gets, when, console_error,
      modify, return_, ret. simpl. by destruct (truthy (client ≫= auth)).
  - unfold new, call, initializeAuthStateListener, bind, gets, when, console_error,
      modify, return_, ret. simpl. by destruct (truthy (client ≫= auth)).
  - intros api Hapi.
    unfold new, call, initializeAuthStateListener, bind, gets, when, console_error,
      modify, return_, ret. simpl. by rewrite Hapi.
  - intros Hnone. split; [|split].
    + unfold new, call, initializeAuthStateListener, bind, gets, when, console_error,
        modify, return_, ret. simpl. by rewrite Hnone.
    + unfold new, call, initializeAuthStateListener, bind, gets, when, console_error,
        modify, return_, ret. simpl. by rewrite Hnone.
    + intros ops. apply run_silent. by right.
Qed.

End RegistryTheorems.

Lemma fanout_logs_every_failure_witness :
  exists s',
    call (AuthService.authStateHandler Samples.leaving (lit "SIGNED_IN") None)
      Samples.three_listeners
    = (Returns tt, s') /\
    AuthService.console s'
    = [AuthService.ConsoleError (lit "Error in auth state change callback:")
         (Some (Error (lit "listener failed")))].
Proof.
  destruct (fanout_logs_every_failure Samples.leaving (lit "SIGNED_IN") None
              Samples.three_listeners) as (s' & H & Hcon & _).
  - unfold Registry.well_formed. vm_compute. lia.
  - exists s'. split; [exact H|]. rewrite Hcon. reflexivity.
Defined.


Lemma unsubscribe_idempotent_witness :
  Registry.well_formed
    (Registry.state_after (AuthService.unsubscribe {| AuthService.captured := 2 |})
       Samples.three_listeners) /\
  AuthService.array_at
    (Registry.state_after (AuthService.unsubscribe {| AuthService.captured := 2 |})
       Samples.three_listeners)
    (AuthService.authStateListeners Samples.three_listeners)
  = [1; 2; 3].
Proof.
  destruct (unsubscribe_idempotent Samples.three_listeners {| AuthService.captured := 2 |})
    as (_ & _ & _ & _ & _ & H).
  destruct H as [Hwf Hold].
  - unfold Registry.well_formed. vm_compute. lia.
  - split; [exact Hwf|]. rewrite Hold. reflexivity.
Defined.

Lemma subscribe_during_fanout_witness :
  exists s',
    AuthService.notifyListeners Samples.inviting None Samples.three_listeners
    = (Normal tt, s') /\
    4 ∈ AuthService.registered s' /\
    Registry.calls_to 4 (AuthService.invocations s') = [].
Proof.
  destruct (subscribe_during_fanout Samples.inviting None Samples.three_listeners)
    as (s' & Hrun & H).
  - unfold Registry.well_formed. vm_compute. lia.
  - destruct (H 4 [] []) as (Hin & Hnot & _).
    + reflexivity.
    + intros handle Hh. by apply elem_of_nil in Hh.
    + exists s'. split; [exact Hrun|]. split; [exact Hin|]. apply Hnot.
      vm_compute. intros Hx.
      repeat (apply elem_of_cons in Hx as [Hx|Hx]; [discriminate|]).
      by apply elem_of_nil in Hx.
Defined.

Lemma run_keeps_invariants_witness :
  AuthService.invocations
    (Runs.run Samples.leaving (Some (Samples.client_of Samples.accepting_api))
       [Runs.OnAuthStateChange 1; Runs.Login (lit "a@b") (lit "secret1");
        Runs.CallHandle {| AuthService.captured := 1 |}; Runs.GetUser])
  = [].
Proof.
  apply (run_keeps_invariants Samples.leaving
           (Some (Samples.client_of Samples.accepting_api))).
  intros op Hin.
  repeat (apply elem_of_cons in Hin as [Hin|Hin]; [by subst|]).
  by apply elem_of_nil in Hin.
Defined.

Lemma constructor_subscription_witness :
  AuthService.upstream (AuthService.new None) = 0 /\
  AuthService.invocations
    (Runs.run Samples.quiet None
       [Runs.OnAuthStateChange 1; Runs.ProviderEvent (lit "SIGNED_IN")
                                    (Some Samples.alice_session)])
  = [].
Proof.
  destruct (constructor_subscription Samples.quiet None) as (_ & _ & _ & H).
  destruct (H eq_refl) as (Hup & _ & Hnever).
  split; [exact Hup | apply Hnever].
Defined.

Lemma fanout_reaches_every_listener_witness :
  exists s',
    AuthService.emit Samples.leaving (lit "SIGNED_IN") (Some Samples.alice_session)
      (Runs.run Samples.leaving (Some (Samples.client_of Samples.accepting_api))
         [Runs.OnAuthStateChange 1; Runs.OnAuthStateChange 2; Runs.OnAuthStateChange 3])
    = (Returns tt, s') /\
    AuthService.invocations s'
    = [(1, Some Samples.alice); (2, Some Samples.alice); (3, Some Samples.alice)].
Proof.
  destruct (fanout_reaches_every_listener Samples.leaving
              (Some (Samples.client_of Samples.accepting_api)) Samples.accepting_api
              [Runs.OnAuthStateChange 1; Runs.OnAuthStateChange 2; Runs.OnAuthStateChange 3]
              (lit "SIGNED_IN") (Some Samples.alice_session) eq_refl)
    as (s' & Hemit & _ & _ & Hinv & _).
  exists s'. split; [exact Hemit|]. rewrite Hinv. reflexivity.
Defined.

(** ** More on the form handlers *)

Section LoginTheorems.
Import Validation LoginValidation LoginPage.

Variable authService_login : JsString -> JsString -> Result AuthService.AuthResponse.

Local Abbreviation handler := (handleLogin authService_login).

Ltac run_handler :=
  unfold call, handleLogin, bind, gets, when, clearError, showError, showLoading,
    restoreButton, try_finally, try_catch, modify, return_, ret, await, throw;
  simpl.

Lemma login_empty_check (email password : JsString) :
  negb (truthyStr email) || negb (truthyStr password)
  = bool_decide (email = [] \/ password = []).
Proof. destruct email, password; reflexivity. Qed.

Lemma show_removed (l : list JsString) :
  lit "show" ∉ filter (fun c => c <> lit "show") l.
Proof. rewrite list_elem_of_filter. tauto. Qed.

Lemma str_or_nonempty e d : d <> [] -> str_or e d <> [].
Proof. intros Hd. unfold str_or. destruct e as [[|c s]|]; simpl; done. Qed.

(** X11. [handleLogin] checks its two rules in their order on the trimmed
    email and the password as typed: when one is violated the message of
    the first such rule is shown, the button, the calls and the location are
    left alone and [authService.login] is not called; when none is violated
    [authService.login] is called once, with the trimmed email and the
    password. *)
Theorem login_validation_first_failure (p : Page) :
  let email := trim (value (email_input p)) in
  let password := value (password_input p) in
  let run := call handler p in
  (forall message,
      first_failure login_rules email password [] = Some message ->
      run.1 = Returns tt /\
      textContent (errorContainer run.2) = message /\
      (lit "show" ∈ classList (errorContainer run.2)) /\
      calls run.2 = calls p /\
      navigations run.2 = navigations p /\
      button run.2 = button p) /\
  (first_failure login_rules email password [] = None ->
   calls run.2 = calls p ++ [AuthLogin email password]).
Proof.
  intros email password run. subst email password run.
  unfold first_failure, login_rules. rewrite <- login_empty_check.
  run_handler.
  destruct (negb (truthyStr (trim (value (email_input p))))
            || negb (truthyStr (value (password_input p)))); simpl.
  { split; [|done]. intros message [= <-]. repeat split. apply show_added. }
  destruct (negb (includes (trim (value (email_input p))) (lit "@"))); simpl.
  { split; [|done]. intros message [= <-]. repeat split. apply show_added. }
  split; [done|]. intros _.
  destruct (authService_login _ _) as [r|e]; simpl;
    [destruct (AuthService.success r); simpl|destruct e; simpl]; done.
Qed.

(** X12. A login submission that passed the rules never changes the fields
    and always leaves the button restored. When [authService.login] reports
    a success the page navigates to "hub.html", the error area stays cleared
    and "Login successful" is logged; when it reports a failure its message
    (or "Login failed" when it has none) is shown and the page stays. When
    the call throws a value that is not [null] or [undefined], the message of
    that value is logged and "An unexpected error occurred. Please try
    again." is shown, and the handler returns. When it throws [null] or
    [undefined], reading [err.message] in the [catch] block throws: the
    handler itself ends with that TypeError, and nothing is shown or
    logged. *)
Theorem login_outcomes (p : Page) :
  let email := trim (value (email_input p)) in
  let password := value (password_input p) in
  email <> [] -> password <> [] -> includes email (lit "@") = true ->
  let run := call handler p in
  email_input run.2 = email_input p /\ password_input run.2 = password_input p /\
  restored (textContent (button p)) run.2 /\
  match authService_login email password with
  | Returns r =>
      run.1 = Returns tt /\
      if AuthService.success r then
        navigations run.2 = navigations p ++ [lit "hub.html"] /\
        textContent (errorContainer run.2) = [] /\
        (lit "show" ∉ classList (errorContainer run.2)) /\
        console run.2 = console p ++ [ConsoleLog (lit "Login successful") None]
      else
        navigations run.2 = navigations p /\
        textContent (errorContainer run.2)
        = str_or (AuthService.error r) (lit "Login failed") /\
        (lit "show" ∈ classList (errorContainer run.2)) /\
        console run.2 = console p
  | Throws ThrownNullish =>
      run.1 = Throws (TypeError (lit "Cannot read properties of undefined")) /\
      navigations run.2 = navigations p /\
      textContent (errorContainer run.2) = [] /\
      (lit "show" ∉ classList (errorContainer run.2)) /\
      console run.2 = console p
  | Throws e =>
      run.1 = Returns tt /\
      navigations run.2 = navigations p /\
      textContent (errorContainer run.2)
      = lit "An unexpected error occurred. Please try again." /\
      (lit "show" ∈ classList (errorContainer run.2)) /\
      console run.2
      = console p ++ [ConsoleError (lit "Login error:") (logged_message e)]
  end.
Proof.
  intros email password He Hp Hat run.
  assert (Het : truthyStr email = true) by (by destruct email).
  assert (Hpt : truthyStr password = true) by (by destruct password).
  subst email password run. unfold restored. run_handler.
  rewrite Het, Hpt, Hat. simpl.
  destruct (authService_login _ _) as [r|e]; simpl;
    [destruct (AuthService.success r) eqn:Es; simpl|destruct e; simpl];
    repeat split; try done; try apply show_added; try apply loading_removed;
    apply show_removed.
Qed.

Lemma login_error_area (p : Page) :
  let p' := (call handler p).2 in
  lit "show" ∈ classList (errorContainer p') <-> textContent (errorContainer p') <> [].
Proof.
  cbv zeta. run_handler.
  destruct (negb (truthyStr (trim (value (email_input p))))
            || negb (truthyStr (value (password_input p)))); simpl.
  { split; [done|]. intros _. apply show_added. }
  destruct (negb (includes (trim (value (email_input p))) (lit "@"))); simpl.
  { split; [done|]. intros _. apply show_added. }
  destruct (authService_login _ _) as [r|e]; simpl;
    [destruct (AuthService.success r) eqn:Es; simpl|destruct e; simpl].
  - split; [intros H; by apply show_removed in H | done].
  - split; [intros _; by apply str_or_nonempty | intros _; apply show_added].
  - split; [done | intros _; apply show_added].
  - split; [done | intros _; apply show_added].
  - split; [intros H; by apply show_removed in H | done].
  - split; [done | intros _; apply show_added].
Qed.

End LoginTheorems.

Section SignupTheorems.
Import Validation SignupPage.

Variable authService_signup : JsString -> JsString -> Result AuthService.AuthResponse.
Variable profileService_createUserProfile :
  JsString -> JsString -> Result ProfileService.ProfileResponse.

Local Abbreviation handler :=
  (handleSignup authService_signup profileService_createUserProfile).

Ltac run_handler :=
  unfold call, handleSignup, bind, gets, when, clearError, showError, showLoading,
    restoreButton, try_finally, try_catch, modify, return_, ret, await, throw;
  simpl.

Ltac pass_rules p :=
  destruct (negb (truthyStr (trim (value (email_input p))))
            || negb (truthyStr (value (password_input p)))
            || negb (truthyStr (trim (value (username_input p))))); simpl;
  [|destruct (negb (includes (trim (value (email_input p))) (lit "@"))); simpl;
    [|destruct (bool_decide (length (value (password_input p)) < 6)); simpl;
      [|destruct (bool_decide (length (trim (value (username_input p))) < 3)); simpl]]].

(** X13. A signup submission that passed the rules never changes the fields
    and always leaves the button restored. When [authService.signup] reports
    a failure, or a success without a user or with an empty id, the message
    is shown and [profileService.createUserProfile] is not called; when both
    calls succeed the page navigates to "hub.html" after exactly these two
    calls, with the error area cleared; when the profile call reports a
    failure its message is shown and the page stays. When one of the two
    calls throws a value that is not [null] or [undefined], its message is
    logged and "An unexpected error occurred. Please try again." is shown,
    and the handler returns; when it throws [null] or [undefined], reading
    [err.message] in the [catch] block throws: the handler itself ends with
    that TypeError, and nothing is shown or logged. *)
Theorem signup_outcomes (p : Page) :
  let email := trim (value (email_input p)) in
  let password := value (password_input p) in
  let username := trim (value (username_input p)) in
  first_failure signup_rules email password username = None ->
  let run := call handler p in
  let shows message :=
    run.1 = Returns tt /\
    textContent (errorContainer run.2) = message /\
    (lit "show" ∈ classList (errorContainer run.2)) /\
    navigations run.2 = navigations p in
  let caught e :=
    navigations run.2 = navigations p /\
    match e with
    | ThrownNullish =>
        run.1 = Throws (TypeError (lit "Cannot read properties of undefined")) /\
        textContent (errorContainer run.2) = [] /\
        (lit "show" ∉ classList (errorContainer run.2)) /\
        console run.2 = console p
    | _ =>
        run.1 = Returns tt /\
        textContent (errorContainer run.2)
        = lit "An unexpected error occurred. Please try again." /\
        (lit "show" ∈ classList (errorContainer run.2)) /\
        console run.2
        = console p ++ [ConsoleError (lit "Signup error:") (logged_message e)]
    end in
  email_input run.2 = email_input p /\ password_input run.2 = password_input p /\
  username_input run.2 = username_input p /\
  restored (textContent (button p)) run.2 /\
  match authService_signup email password with
  | Throws e =>
      calls run.2 = calls p ++ [AuthSignup email password] /\ caught e
  | Returns r =>
      if negb (AuthService.success r) then
        calls run.2 = calls p ++ [AuthSignup email password] /\
        shows (str_or (AuthService.error r) (lit "Signup failed"))
      else
        match AuthService.user r with
        | None =>
            calls run.2 = calls p ++ [AuthSignup email password] /\
            shows (lit "Failed to create user account")
        | Some u =>
            if negb (truthyStr (id u)) then
              calls run.2 = calls p ++ [AuthSignup email password] /\
              shows (lit "Failed to create user account")
            else
              calls run.2
              = calls p ++ [AuthSignup email password; ProfileCreate (id u) username] /\
              match profileService_createUserProfile (id u) username with
              | Throws e => caught e
              | Returns pr =>
                  if negb (ProfileService.success pr) then
                    shows (str_or (ProfileService.error pr)
                             (lit "Failed to create user profile"))
                  else
                    run.1 = Returns tt /\
                    navigations run.2 = navigations p ++ [lit "hub.html"] /\
                    textContent (errorContainer run.2) = [] /\
                    (lit "show" ∉ classList (errorContainer run.2)) /\
                    console run.2
                    = console p
                      ++ [ConsoleLog (lit "Signup and profile creation successful") None]
              end
        end
  end.
Proof.
  intros email password username. subst email password username.
  unfold first_failure, signup_rules, restored.
  rewrite <- empty_check, <- !length_check.
  run_handler. pass_rules p; try done. intros _.
  destruct (authService_signup _ _) as [r|e]; simpl;
    [destruct (AuthService.success r); simpl;
     [destruct (AuthService.user r) as [u|]; simpl;
      [destruct (truthyStr (id u)); simpl;
       [destruct (profileService_createUserProfile _ _) as [pr|e]; simpl;
        [destruct (ProfileService.success pr); simpl|destruct e; simpl]|]|]|]
    |destruct e; simpl];
    repeat split; try done; try (by rewrite <- app_assoc);
    try apply show_added; try apply loading_removed; apply show_removed.
Qed.

Lemma signup_error_area (p : Page) :
  let p' := (call handler p).2 in
  lit "show" ∈ classList (errorContainer p') <-> textContent (errorContainer p') <> [].
Proof.
  cbv zeta. run_handler. pass_rules p;
    try (split; [done | intros _; apply show_added]).
  destruct (authService_signup _ _) as [r|e]; simpl;
    [destruct (AuthService.success r); simpl;
     [destruct (AuthService.user r) as [u|]; simpl;
      [destruct (truthyStr (id u)); simpl;
       [destruct (profileService_createUserProfile _ _) as [pr|e]; simpl;
        [destruct (ProfileService.success pr); simpl|destruct e; simpl]|]|]|]
    |destruct e; simpl];
    try (split; [done | intros _; apply show_added]);
    try (split; [intros _; by apply str_or_nonempty | intros _; apply show_added]);
    (split; [intros H; by apply show_removed in H | done]).
Qed.

End SignupTheorems.

(** X14. After every submission of the login or of the signup form,
    whatever the page held before and whatever the gateways do, the error
    area carries the class "show" exactly when its text is not empty: an
    earlier message never survives a submission that ends well. *)
Theorem error_area_consistent
    (authService_login authService_signup :
       JsString -> JsString -> Result AuthService.AuthResponse)
    (profileService_createUserProfile :
       JsString -> JsString -> Result ProfileService.ProfileResponse)
    (p : Page) :
  let after_login := (call (LoginPage.handleLogin authService_login) p).2 in
  let after_signup :=
    (call (SignupPage.handleSignup authService_signup
             profileService_createUserProfile) p).2 in
  (lit "show" ∈ classList (errorContainer after_login)
   <-> textContent (errorContainer after_login) <> []) /\
  (lit "show" ∈ classList (errorContainer after_signup)
   <-> textContent (errorContainer after_signup) <> []).
Proof.
  split; [apply login_error_area | apply signup_error_area].
Qed.

Lemma login_validation_first_failure_witness :
  let run := call (LoginPage.handleLogin Samples.login_ok)
               (Samples.form [] (lit "secret1") [] (lit "Log in")) in
  textContent (errorContainer run.2) = lit "Please enter both email and password" /\
  calls run.2 = [].
Proof.
  destruct (login_validation_first_failure Samples.login_ok
              (Samples.form [] (lit "secret1") [] (lit "Log in"))) as [H _].
  destruct (H _ eq_refl) as (_ & Htext & _ & Hcalls & _).
  split; [exact Htext | exact Hcalls].
Defined.

Lemma login_outcomes_witness :
  navigations (call (LoginPage.handleLogin Samples.login_ok)
                 (Samples.form (lit "alice@example.com") (lit "secret1") []
                    (lit "Log in"))).2
  = [lit "hub.html"].
Proof.
  destruct (login_outcomes Samples.login_ok
              (Samples.form (lit "alice@example.com") (lit "secret1") [] (lit "Log in")))
    as (_ & _ & _ & H); [discriminate | discriminate | reflexivity |].
  destruct H as (_ & Hnav & _). exact Hnav.
Defined.

Lemma signup_outcomes_witness :
  let run := call (SignupPage.handleSignup Samples.signup_ok Samples.profile_ok)
               (Samples.form (lit "alice@example.com") (lit "secret1") (lit "alice")
                  (lit "Sign up")) in
  calls run.2 = [AuthSignup (lit "alice@example.com") (lit "secret1");
                 ProfileCreate (lit "u1") (lit "alice")] /\
  navigations run.2 = [lit "hub.html"].
Proof.
  destruct (signup_outcomes Samples.signup_ok Samples.profile_ok
              (Samples.form (lit "alice@example.com") (lit "secret1") (lit "alice")
                 (lit "Sign up")))
    as (_ & _ & _ & _ & H); [reflexivity|].
  destruct H as (Hcalls & _ & Hnav & _). split; [exact Hcalls | exact Hnav].
Defined.

(** ** The pages together with the services *)

Section LegacyTheorems.
Import LegacySignup.

Variable db : option Client.

Ltac same_call :=
  repeat match goal with
         | E : ?x = _, H : ?x = _ |- _ => rewrite E in H
         end.

(** X15. The handler of [signup.js] never touches the page: whatever
    happens, the button, the error area, the fields and the location are
    what they were, and failures only reach the console. It validates
    nothing: with a usable [window.db] its first act is the sign-up call
    with the values as typed. The insert is made only after a sign-up reply
    without error that carries a user, for that user's id and the username
    as typed. A sign-up call that rejects makes the handler itself reject,
    and so does a missing [window.db]. *)
Theorem legacy_signup_behaviour (p : Page) :
  let email := value (email_input p) in
  let password := value (password_input p) in
  let username := value (username_input p) in
  let run := call (handleSignup db) p in
  (button run.2 = button p /\ errorContainer run.2 = errorContainer p /\
   navigations run.2 = navigations p /\ email_input run.2 = email_input p /\
   password_input run.2 = password_input p /\ username_input run.2 = username_input p) /\
  (db ≫= auth = None -> calls run.2 = calls p /\ exists m, run.1 = Throws (TypeError m)) /\
  (forall api, db ≫= auth = Some api ->
     (exists rest, calls run.2 = calls p ++ SdkSignUp email password :: rest) /\
     (forall e, signUp api email password = Throws e ->
                run.1 = Throws e /\ calls run.2 = calls p ++ [SdkSignUp email password]) /\
     (forall reply err,
         signUp api email password = Returns (Some reply) ->
         Provider.error reply = Some err ->
         run.1 = Returns tt /\
         calls run.2 = calls p ++ [SdkSignUp email password] /\
         console run.2
         = console p ++ [ConsoleLog (lit "Signup error:") (Some (message err))])) /\
  (forall table userId name,
      SdkInsert table userId name ∈ drop (length (calls p)) (calls run.2) ->
      table = lit "profiles" /\ name = username /\
      exists api reply d u,
        db ≫= auth = Some api /\
        signUp api email password = Returns (Some reply) /\
        Provider.error reply = None /\ data reply = Some d /\
        data_user d = Some u /\ id u = userId).
Proof.
  intros email password username run. subst email password username run.
  unfold call, handleSignup, bind, gets, deref, modify, return_, ret, await, throw.
  simpl.
  destruct db as [c|]; simpl; [destruct (auth c) as [api|] eqn:Ea; simpl|].
  - destruct (signUp api _ _) as [[reply|]|e] eqn:Es; simpl;
      [destruct (Provider.error reply) as [err|] eqn:Ee; simpl;
       [|destruct (data reply) as [d|] eqn:Ed; simpl;
         [destruct (data_user d) as [u|] eqn:Eu; simpl;
          [destruct (from_insert c _ _ _) as [[reply'|]|e'] eqn:Ei; simpl;
           [destruct (Provider.error reply') as [err'|] eqn:Ee'; simpl|..]|]|]]|..];
      rewrite <- ?app_assoc; simpl;
      (split; [done|]); (split; [done|]);
      (split;
       [intros api' [= <-]; split; [eexists; reflexivity|];
        split; intros; same_call; simplify_eq; done
       |intros table userId name Hin; rewrite drop_app_length in Hin;
        repeat (apply elem_of_cons in Hin as [Hin|Hin]; [simplify_eq|]);
        try (by apply elem_of_nil in Hin);
        (split; [done|]); (split; [done|]); by exists api, reply, d, u]).
  - split; [done|]. split; [intros _; split; [done|eauto]|].
    split; [done|]. intros table userId name Hin.
    rewrite drop_all in Hin. by apply elem_of_nil in Hin.
  - split; [done|]. split; [intros _; split; [done|eauto]|].
    split; [done|]. intros table userId name Hin.
    rewrite drop_all in Hin. by apply elem_of_nil in Hin.
Qed.

End LegacyTheorems.

Section WiredPages.
Import Validation Contract.

Lemma handleLogin_returned login p r :
  let email := trim (value (email_input p)) in
  let password := value (password_input p) in
  email <> [] -> password <> [] -> includes email (lit "@") = true ->
  login email password = Returns r ->
  let run := call (LoginPage.handleLogin login) p in
  run.1 = Returns tt /\
  (AuthService.success r = true ->
   navigations run.2 = navigations p ++ [lit "hub.html"] /\
   textContent (errorContainer run.2) = [] /\
   console run.2 = console p ++ [ConsoleLog (lit "Login successful") None]) /\
  (AuthService.success r = false ->
   navigations run.2 = navigations p /\
   textContent (errorContainer run.2) = str_or (AuthService.error r) (lit "Login failed") /\
   console run.2 = console p).
Proof.
  intros email password He Hp Hat Hr run.
  assert (Het : truthyStr email = true) by (by destruct email).
  assert (Hpt : truthyStr password = true) by (by destruct password).
  subst email password run.
  unfold call, LoginPage.handleLogin, bind, gets, when, clearError, showError,
    showLoading, restoreButton, try_finally, try_catch, modify, return_, ret, await,
    throw; simpl.
  rewrite Het, Hpt, Hat. simpl. rewrite Hr. simpl.
  destruct (AuthService.success r); simpl; repeat split; done.
Qed.

Lemma handleSignup_console signup createProfile p r :
  let email := trim (value (email_input p)) in
  let password := value (password_input p) in
  let username := trim (value (username_input p)) in
  first_failure signup_rules email password username = None ->
  signup email password = Returns r ->
  (forall u, AuthService.user r = Some u ->
             exists pr, createProfile (id u) username = Returns pr) ->
  let run := call (SignupPage.handleSignup signup createProfile) p in
  console run.2 = console p \/
  console run.2
  = console p ++ [ConsoleLog (lit "Signup and profile creation successful") None].
Proof.
  intros email password username. subst email password username.
  unfold first_failure, signup_rules.
  rewrite <- empty_check, <- !length_check.
  unfold call, SignupPage.handleSignup, bind, gets, when, clearError, showError,
    showLoading, restoreButton, try_finally, try_catch, modify, return_, ret, await,
    throw; simpl.
  destruct (negb (truthyStr (trim (value (email_input p))))
            || negb (truthyStr (value (password_input p)))
            || negb (truthyStr (trim (value (username_input p))))); simpl; [done|].
  destruct (negb (includes (trim (value (email_input p))) (lit "@"))); simpl; [done|].
  destruct (bool_decide (length (value (password_input p)) < 6)); simpl; [done|].
  destruct (bool_decide (length (trim (value (username_input p))) < 3)); simpl; [done|].
  intros _ Hr Hpr. rewrite Hr. simpl.
  destruct (AuthService.success r); simpl; [|by left].
  destruct (AuthService.user r) as [u|]; simpl; [|by left].
  destruct (truthyStr (id u)); simpl; [|by left].
  destruct (Hpr u eq_refl) as [pr Hp]. rewrite Hp. simpl.
  destruct (ProfileService.success pr); simpl; [by right | by left].
Qed.

Lemma createUserProfile_cases profile userId username :
  exists pr,
    App.profileService_createUserProfile profile userId username = Returns pr /\
    (forall c reply,
        ProfileService.supabaseClient profile = Some c ->
        from_insert c (lit "profiles") userId username = Returns (Some reply) ->
        pr = match Provider.error reply with
             | Some _ => {| ProfileService.success := false;
                            ProfileService.error :=
                              Some (lit "Failed to create user profile") |}
             | None => {| ProfileService.success := true;
                          ProfileService.error := None |}
             end).
Proof.
  unfold App.profileService_createUserProfile, ProfileService.createUserProfile,
    call_returning, try_catch, bind, gets, deref, await, return_, throw, ret; simpl.
  destruct (ProfileService.supabaseClient profile) as [c|]; simpl;
    [destruct (from_insert c (lit "profiles") userId username) as [[reply|]|e] eqn:Eop;
     simpl; [destruct (Provider.error reply) as [err|] eqn:Eerr; simpl|..]|];
    eexists; (split; [reflexivity|]); intros c' reply' Hc Hop; simplify_eq;
    rewrite Eop in Hop; simplify_eq. 
  - by rewrite Eerr.
  - by rewrite Eerr.
Qed.

Lemma formatErrorMessage_shown rawError d :
  str_or (Some (AuthService.formatErrorMessage rawError)) d
  = AuthService.formatErrorMessage rawError.
Proof.
  pose proof (readable_nonempty _ (formatErrorMessage_readable rawError)) as H.
  unfold str_or. by destruct (AuthService.formatErrorMessage rawError).
Qed.

Lemma formatErrorMessage_truthy rawError :
  truthyStr (AuthService.formatErrorMessage rawError) = true.
Proof.
  pose proof (readable_nonempty _ (formatErrorMessage_readable rawError)) as H.
  by destruct (AuthService.formatErrorMessage rawError).
Qed.

(** X16. The login page over the real gateway: a submission that passed the
    rules never reaches the handler's [catch] block (nothing is written
    with [console.error]); a provider error is shown as [formatErrorMessage]
    renders its message, a sign-in call that throws is shown as "An
    unexpected error occurred during login", and in both cases the page
    stays; a reply without error and with data makes the page navigate to
    "hub.html". *)
Theorem login_page_with_gateway (auth : AuthService.State) (p : Page) :
  let email := trim (value (email_input p)) in
  let password := value (password_input p) in
  email <> [] -> password <> [] -> includes email (lit "@") = true ->
  let run := call (App.handleLogin auth) p in
  run.1 = Returns tt /\
  (console run.2 = console p \/
   console run.2 = console p ++ [ConsoleLog (lit "Login successful") None]) /\
  (forall api reply err,
      api_of auth = Some api ->
      signInWithPassword api email password = Returns (Some reply) ->
      Provider.error reply = Some err ->
      textContent (errorContainer run.2) = AuthService.formatErrorMessage (message err) /\
      navigations run.2 = navigations p) /\
  (forall api e,
      api_of auth = Some api ->
      signInWithPassword api email password = Throws e ->
      textContent (errorContainer run.2)
      = lit "An unexpected error occurred during login" /\
      navigations run.2 = navigations p) /\
  (forall api reply d,
      api_of auth = Some api ->
      signInWithPassword api email password = Returns (Some reply) ->
      Provider.error reply = None -> data reply = Some d ->
      textContent (errorContainer run.2) = [] /\
      navigations run.2 = navigations p ++ [lit "hub.html"]).
Proof.
  intros email password He Hp Hat run.
  destruct (credentials_call_spec signInWithPassword
              (lit "An unexpected error occurred during login") email password auth)
    as (r & Hcall & _ & Herr & Hthrow & Hok); [vm_compute; repeat constructor|].
  assert (Hr : App.authService_login auth email password = Returns r).
  { unfold App.authService_login, AuthService.login. by rewrite Hcall. }
  destruct (handleLogin_returned (App.authService_login auth) p r He Hp Hat Hr)
    as (Hret & Hsucc & Hfail).
  subst run. unfold App.handleLogin. cbv zeta in Hret, Hsucc, Hfail.
  split; [exact Hret|]. split; [|split; [|split]].
  - destruct (AuthService.success r) eqn:Es.
    + right. by apply Hsucc.
    + left. by apply Hfail.
  - intros api reply err Ha Hop He'.
    rewrite (Herr api reply err Ha Hop He') in Hfail.
    destruct (Hfail eq_refl) as (Hnav & Htext & _).
    split; [|exact Hnav]. rewrite Htext. apply formatErrorMessage_shown.
  - intros api e Ha Hop. rewrite (Hthrow api e Ha Hop) in Hfail.
    destruct (Hfail eq_refl) as (Hnav & Htext & _). by split.
  - intros api reply d Ha Hop He' Hd. rewrite (Hok api reply d Ha Hop He' Hd) in Hsucc.
    destruct (Hsucc eq_refl) as (Hnav & Htext & _). by split.
Qed.

(** X17. The signup page over the real gateways: a submission that passed
    the rules never reaches the handler's [catch] block. A provider error at
    sign-up is shown as [formatErrorMessage] renders it and no profile is
    created; a sign-up reply without a user, or with a user whose id is
    empty, shows "Failed to create user account"; with a user, the profile
    row is requested for that id and the trimmed username, and the page
    navigates to "hub.html" when the insert reports no error and shows
    "Failed to create user profile" and stays when it reports one. *)
Theorem signup_page_with_gateways
    (auth : AuthService.State) (profile : ProfileService.State) (p : Page) :
  let email := trim (value (email_input p)) in
  let password := value (password_input p) in
  let username := trim (value (username_input p)) in
  first_failure signup_rules email password username = None ->
  let run := call (App.handleSignup auth profile) p in
  run.1 = Returns tt /\
  (console run.2 = console p \/
   console run.2
   = console p ++ [ConsoleLog (lit "Signup and profile creation successful") None]) /\
  (forall api reply err,
      api_of auth = Some api ->
      signUp api email password = Returns (Some reply) ->
      Provider.error reply = Some err ->
      textContent (errorContainer run.2) = AuthService.formatErrorMessage (message err) /\
      calls run.2 = calls p ++ [AuthSignup email password] /\
      navigations run.2 = navigations p) /\
  (forall api reply d,
      api_of auth = Some api ->
      signUp api email password = Returns (Some reply) ->
      Provider.error reply = None -> data reply = Some d ->
      (data_user d = None \/ exists u, data_user d = Some u /\ id u = []) ->
      textContent (errorContainer run.2) = lit "Failed to create user account" /\
      calls run.2 = calls p ++ [AuthSignup email password] /\
      navigations run.2 = navigations p) /\
  (forall api reply d u c reply',
      api_of auth = Some api ->
      signUp api email password = Returns (Some reply) ->
      Provider.error reply = None -> data reply = Some d ->
      data_user d = Some u -> id u <> [] ->
      ProfileService.supabaseClient profile = Some c ->
      from_insert c (lit "profiles") (id u) username = Returns (Some reply') ->
      calls run.2 = calls p ++ [AuthSignup email password; ProfileCreate (id u) username] /\
      match Provider.error reply' with
      | Some _ =>
          textContent (errorContainer run.2) = lit "Failed to create user profile" /\
          navigations run.2 = navigations p
      | None =>
          textContent (errorContainer run.2) = [] /\
          navigations run.2 = navigations p ++ [lit "hub.html"]
      end).
Proof.
  intros email password username Hrules run.
  destruct (credentials_call_spec signUp
              (lit "An unexpected error occurred during signup") email password auth)
    as (r & Hcall & _ & Herr & _ & Hok); [vm_compute; repeat constructor|].
  assert (Hr : App.authService_signup auth email password = Returns r).
  { unfold App.authService_signup, AuthService.signup. by rewrite Hcall. }
  destruct (handleSignup_accepts (App.authService_signup auth)
              (App.profileService_createUserProfile profile) p Hrules)
    as (Hret & Hcalls & Hnav & Htext & _).
  pose proof (handleSignup_console (App.authService_signup auth)
                (App.profileService_createUserProfile profile) p r Hrules Hr) as Hcon.
  subst run. unfold App.handleSignup.
  cbv zeta in Hret, Hcalls, Hnav, Htext, Hcon.
  fold email password username in Hcalls, Hnav, Htext, Hcon.
  unfold flow in Hcalls, Hnav, Htext. rewrite Hr in Hcalls, Hnav, Htext.
  split.
  { apply Hret.
    - intros e. fold email password. by rewrite Hr.
    - intros userId e.
      destruct (createUserProfile_cases profile userId username) as (pr & Hpr & _).
      fold username. by rewrite Hpr. }
  split; [|split; [|split]].
  - apply Hcon. intros u _.
    destruct (createUserProfile_cases profile (id u) username) as (pr & Hpr & _).
    by exists pr.
  - intros api reply err Ha Hop He.
    rewrite (Herr api reply err Ha Hop He) in Hcalls, Hnav, Htext. simpl in *.
    rewrite formatErrorMessage_truthy in Htext. rewrite app_nil_r in Hnav. done.
  - intros api reply d Ha Hop He Hd Huser.
    rewrite (Hok api reply d Ha Hop He Hd) in Hcalls, Hnav, Htext. simpl in *.
    destruct Huser as [Hu|(u & Hu & Hid)]; rewrite Hu in Hcalls, Hnav, Htext.
    + simpl in *. rewrite app_nil_r in Hnav. done.
    + rewrite Hid in Hcalls, Hnav, Htext. simpl in *. rewrite app_nil_r in Hnav. done.
  - intros api reply d u c reply' Ha Hop He Hd Hu Hid Hc Hins.
    rewrite (Hok api reply d Ha Hop He Hd) in Hcalls, Hnav, Htext. simpl in *.
    rewrite Hu in Hcalls, Hnav, Htext.
    assert (Ht : truthyStr (id u) = true) by (by destruct (id u)).
    rewrite Ht in Hcalls, Hnav, Htext. simpl in *.
    destruct (createUserProfile_cases profile (id u) username) as (pr & Hpr & Hcase).
    rewrite Hpr in Hcalls, Hnav, Htext.
    rewrite (Hcase c reply' Hc Hins) in Hcalls, Hnav, Htext.
    destruct (Provider.error reply'); simpl in *.
    + rewrite app_nil_r in Hnav. done.
    + done.
Qed.

End WiredPages.

Lemma legacy_signup_behaviour_witness :
  let run := call (LegacySignup.handleSignup (Some (Samples.client_of Samples.refusing_api)))
               (Samples.form [] [] [] (lit "Sign up")) in
  run.1 = Returns tt /\ calls run.2 = [SdkSignUp [] []].
Proof.
  destruct (legacy_signup_behaviour (Some (Samples.client_of Samples.refusing_api))
              (Samples.form [] [] [] (lit "Sign up"))) as (_ & _ & H & _).
  destruct (H Samples.refusing_api eq_refl) as (_ & _ & Herr).
  destruct (Herr _ _ eq_refl eq_refl) as (Hret & Hcalls & _).
  split; [exact Hret | exact Hcalls].
Defined.

Lemma login_page_with_gateway_witness :
  textContent
    (errorContainer
       (call (App.handleLogin (AuthService.new (Some (Samples.client_of Samples.refusing_api))))
          (Samples.form (lit "alice@example.com") (lit "wrong1") [] (lit "Log in"))).2)
  = lit "Invalid email or password".
Proof.
  destruct (login_page_with_gateway
              (AuthService.new (Some (Samples.client_of Samples.refusing_api)))
              (Samples.form (lit "alice@example.com") (lit "wrong1") [] (lit "Log in")))
    as (_ & _ & H & _); [discriminate | discriminate | reflexivity |].
  destruct (H Samples.refusing_api _ _ eq_refl eq_refl eq_refl) as [Htext _].
  rewrite Htext. reflexivity.
Defined.

Lemma signup_page_with_gateways_witness :
  let run := call (App.handleSignup
                     (AuthService.new (Some Samples.conflicting_client))
                     {| ProfileService.supabaseClient := Some Samples.conflicting_client |})
               (Samples.form (lit "alice@example.com") (lit "secret1") (lit "alice")
                  (lit "Sign up")) in
  textContent (errorContainer run.2) = lit "Failed to create user profile" /\
  navigations run.2 = [].
Proof.
  destruct (signup_page_with_gateways
              (AuthService.new (Some Samples.conflicting_client))
              {| ProfileService.supabaseClient := Some Samples.conflicting_client |}
              (Samples.form (lit "alice@example.com") (lit "secret1") (lit "alice")
                 (lit "Sign up")))
    as (_ & _ & _ & _ & H); [reflexivity|].
  destruct (H Samples.accepting_api _ _ Samples.alice Samples.conflicting_client _
              eq_refl eq_refl eq_refl eq_refl eq_refl ltac:(discriminate) eq_refl eq_refl)
    as [_ Hshown].
  exact Hshown.
Defined.
(** ** Binding a handler to its page *)

Section PageInitTheorems.
Import PageInit Validation LoginValidation.

Variable m : PageModule.

#[local] Arguments lit : simpl never.
#[local] Arguments call_handler : simpl never.

Ltac decide_literals :=
  repeat match goal with
         | |- context [bool_decide (lit ?a = lit ?b)] =>
             first [ rewrite (bool_decide_eq_true_2 (lit a = lit b)) by reflexivity
                   | rewrite (bool_decide_eq_false_2 (lit a = lit b))
                       by (vm_compute; discriminate) ];
             cbn
         end.

Ltac deliver :=
  unfold ready, content_loaded, module_body, bind_handlers, addEventListener,
    with_readyState, dispatch, run_listener; cbn; decide_literals.

(** The document once the module has run and the document is parsed: only
    the listeners differ from the document the module found. *)
Lemma ready_document (d : Document) :
  registrations d = [] ->
  let final := ready m d in
  page final = page d /\ unhandled final = unhandled d /\
  has_button final = has_button d /\ has_password final = has_password d.
Proof.
  intros Hfresh. destruct d as [rs hb hp regs pg un]. simpl in Hfresh. subst regs.
  destruct rs, hb, hp; deliver; done.
Qed.

(** What the two events of a submission do to that document. *)
Lemma ready_dispatch (d : Document) :
  registrations d = [] ->
  let final := ready m d in
  let keypress k := {| on := PasswordInput; event_type := lit "keypress"; key := k |} in
  let click := {| on := SubmitButton; event_type := lit "click"; key := [] |} in
  (forall k, k <> lit "Enter" -> dispatch m (keypress k) final = final) /\
  dispatch m (keypress (lit "Enter")) final
  = (if has_password d then call_handler m final else final) /\
  dispatch m click final
  = (if has_button d then call_handler m final else final).
Proof.
  intros Hfresh. destruct d as [rs hb hp regs pg un]. simpl in Hfresh. subst regs.
  destruct rs, hb, hp;
    (split; [|split; deliver; reflexivity]);
    intros k Hk; deliver;
    rewrite ?(bool_decide_eq_false_2 (k = lit "Enter")) by done; reflexivity.
Qed.

(** The handler on a document without its button: the rules are checked as
    ever, and a submission that passes them ends at the first use of the
    button. *)
Lemma without_button (p : Page) :
  let email := trim (value (email_input p)) in
  let password := value (password_input p) in
  let username := trim (value (username_input p)) in
  let run :=
    call match m with
         | LoginModule _ => LoginPage.handleLogin_without_button
         | SignupModule _ _ => SignupPage.handleSignup_without_button
         end p in
  calls run.2 = calls p /\ navigations run.2 = navigations p /\
  button run.2 = button p /\ console run.2 = console p /\
  match first_failure (rules m) email password username with
  | Some message =>
      run.1 = Returns tt /\ textContent (errorContainer run.2) = message
  | None =>
      run.1 = Throws (TypeError (lit "Cannot set properties of null")) /\
      textContent (errorContainer run.2) = []
  end.
Proof.
  destruct m as [login|signup createUserProfile]; cbv zeta;
    unfold rules, first_failure, login_rules, signup_rules.
  - rewrite <- login_empty_check.
    unfold call, LoginPage.handleLogin_without_button, bind, gets, when, clearError,
      showError, modify, return_, ret, throw; simpl.
    destruct (negb (truthyStr (trim (value (email_input p))))
              || negb (truthyStr (value (password_input p)))); simpl; [done|].
    destruct (negb (includes (trim (value (email_input p))) (lit "@"))); simpl; done.
  - rewrite <- empty_check, <- !length_check.
    unfold call, SignupPage.handleSignup_without_button, bind, gets, when, clearError,
      showError, modify, return_, ret, throw; simpl.
    destruct (negb (truthyStr (trim (value (email_input p))))
              || negb (truthyStr (value (password_input p)))
              || negb (truthyStr (trim (value (username_input p))))); simpl; [done|].
    destruct (negb (includes (trim (value (email_input p))) (lit "@"))); simpl; [done|].
    destruct (bool_decide (length (value (password_input p)) < 6)); simpl; [done|].
    destruct (bool_decide (length (trim (value (username_input p))) < 3)); simpl; done.
Qed.

(** X18. Whether the module is evaluated while the document is loading or
    after, once the document is parsed the same listeners are bound: the
    handler to a click on the button when there is one, and the Enter
    listener to key presses in the password field when there is one; binding
    changes neither the page nor the unhandled rejections. A key other than
    Enter changes nothing. With both elements, Enter in the password field
    and a click on the button each run the handler once, and a rejection of
    the handler stays unhandled. Without the button a click does nothing,
    and Enter runs the handler up to its first use of the button: the rules
    are checked and the first failing one is shown, and a submission that
    passes them ends there with a TypeError nobody handles, the error area
    cleared, no gateway called and no navigation. Without the password field
    Enter does nothing, and a click ends at the read of the field with a
    TypeError nobody handles and the page unchanged. *)
Theorem page_init_binds_handler (d : Document) :
  registrations d = [] ->
  let final := ready m d in
  let keypress k := {| on := PasswordInput; event_type := lit "keypress"; key := k |} in
  let click := {| on := SubmitButton; event_type := lit "click"; key := [] |} in
  let enter := dispatch m (keypress (lit "Enter")) final in
  let clicked := dispatch m click final in
  let email := trim (value (email_input (page d))) in
  let password := value (password_input (page d)) in
  let username := trim (value (username_input (page d))) in
  filter (fun r => target r <> TheDocument) (registrations final)
  = (if has_button d
     then [{| target := SubmitButton; type := lit "click"; listener := Submit |}]
     else [])
    ++ (if has_password d
        then [{| target := PasswordInput; type := lit "keypress";
                 listener := SubmitOnEnter |}]
        else []) /\
  page final = page d /\ unhandled final = unhandled d /\
  (forall k, k <> lit "Enter" -> dispatch m (keypress k) final = final) /\
  match has_button d, has_password d with
  | true, true =>
      let run := call (handler m) (page d) in
      page enter = run.2 /\ unhandled enter = unhandled d ++ rejection run.1 /\
      clicked = enter
  | false, true =>
      clicked = final /\
      calls (page enter) = calls (page d) /\
      navigations (page enter) = navigations (page d) /\
      button (page enter) = button (page d) /\
      console (page enter) = console (page d) /\
      match first_failure (rules m) email password username with
      | Some message =>
          textContent (errorContainer (page enter)) = message /\
          unhandled enter = unhandled d
      | None =>
          textContent (errorContainer (page enter)) = [] /\
          unhandled enter
          = unhandled d ++ [TypeError (lit "Cannot set properties of null")]
      end
  | true, false =>
      enter = final /\
      page clicked = page d /\
      unhandled clicked
      = unhandled d ++ [TypeError (lit "Cannot read properties of null")]
  | false, false => enter = final /\ clicked = final
  end.
Proof.
  intros Hfresh final keypress click enter clicked email password username.
  destruct (ready_document d Hfresh) as (Hpage & Hun & Hb & Hp).
  destruct (ready_dispatch d Hfresh) as (Hkey & Henter & Hclick).
  cbv zeta in Hpage, Hun, Hb, Hp, Hkey, Henter, Hclick.
  subst final keypress click enter clicked. cbv beta.
  split.
  { destruct d as [rs hb hp regs pg un]. simpl in Hfresh. subst regs.
    destruct rs, hb, hp; reflexivity. }
  split; [exact Hpage|]. split; [exact Hun|]. split; [exact Hkey|].
  rewrite Henter, Hclick. unfold call_handler, handler_on.
  rewrite Hb, Hp, Hpage, Hun.
  destruct (has_button d), (has_password d); simpl.
  - split; [|split; [|reflexivity]]; by destruct m.
  - split; [reflexivity|]. by destruct m.
  - pose proof (without_button (page d)) as H. cbv zeta in H.
    fold email password username in H.
    destruct H as (Hcalls & Hnav & Hbutton & Hconsole & Hrules).
    split; [reflexivity|].
    destruct m;
      (split; [exact Hcalls|]); (split; [exact Hnav|]);
      (split; [exact Hbutton|]); (split; [exact Hconsole|]);
      destruct (first_failure _ _ _ _); destruct Hrules as [-> Htext];
      simpl; rewrite ?app_nil_r; done.
  - done.
Qed.

End PageInitTheorems.

Lemma page_init_binds_handler_witness :
  let d := {| PageInit.readyState := PageInit.Loading; PageInit.has_button := false;
              PageInit.has_password := true; PageInit.registrations := [];
              PageInit.page := Samples.form (lit "alice@example.com") (lit "secret1") []
                                 (lit "Log in");
              PageInit.unhandled := [] |} in
  let after :=
    PageInit.dispatch (PageInit.LoginModule Samples.login_ok)
      {| PageInit.on := PageInit.PasswordInput;
         PageInit.event_type := lit "keypress"; PageInit.key := lit "Enter" |}
      (PageInit.ready (PageInit.LoginModule Samples.login_ok) d) in
  calls (PageInit.page after) = [] /\
  navigations (PageInit.page after) = [] /\
  PageInit.unhandled after = [TypeError (lit "Cannot set properties of null")].
Proof.
  intros d after.
  destruct (page_init_binds_handler (PageInit.LoginModule Samples.login_ok) d eq_refl)
    as (_ & _ & _ & _ & H).
  change (PageInit.has_button d) with false in H.
  change (PageInit.has_password d) with true in H.
  cbv iota in H.
  destruct H as (_ & Hcalls & Hnav & _ & _ & Hrules).
  change (Validation.first_failure _ _ _ _) with (@None JsString) in Hrules.
  destruct Hrules as [_ Hun].
  split; [exact Hcalls|]. split; [exact Hnav | exact Hun].
Defined.
